(** * librarian: a shallow embedding of [librarian.py] and its checked properties

    The development follows the layout of the Python module:
    - [Py]: the handful of Python built-ins and standard-library functions the
      module calls ([str.startswith], [in] on strings, [str.lower],
      [posixpath.join], exceptions, the [typing] decorators);
    - the run-time records ([AppConfig], [LanguageSpecs], [Module_], ...)
      and the module globals gathered in one [World];
    - one section per component: document cells, the project scanner, the
      plug-in registry, vendors and dependencies;
    - the remaining run-time code: construction of the configuration
      ([Config]), the other registry queries ([Catalog]) and the loaders of
      a language specification ([Specs]).

    Strings are Rocq [string]s (byte sequences).  Python's [str] is a sequence
    of code points; for prefix and substring tests the two views agree on
    UTF-8 text, and [str.lower] is modelled on the ASCII letters only (no
    statement below depends on more than that). *)

From Stdlib Require Import String Ascii ZArith Lia Bool.
From stdpp Require Import gmap strings list.

Local Open Scope Z_scope.
Local Set Warnings "-register-all".
#[local] Arguments String.append !_ _ / : simpl nomatch.

(* ===================================================================== *)
(** * Python built-ins                                                     *)
(* ===================================================================== *)

Module Py.

(** [s.startswith(p)] *)
Fixpoint startswith (s p : string) : bool :=
  match p, s with
  | EmptyString, _ => true
  | String _ _, EmptyString => false
  | String a p', String b s' => Ascii.eqb a b && startswith s' p'
  end.

(** [s.endswith(p)] for a one-character [p], as [posixpath.join] uses it. *)
Fixpoint endswith_char (s : string) (c : ascii) : bool :=
  match s with
  | EmptyString => false
  | String a EmptyString => Ascii.eqb a c
  | String _ s' => endswith_char s' c
  end.

(** [sub in s] on strings: [sub] occurs in [s] as a contiguous substring. *)
Fixpoint str_in (sub s : string) : bool :=
  startswith s sub ||
  match s with
  | EmptyString => false
  | String _ s' => str_in sub s'
  end.

(** [x in l] on a list of strings. *)
Definition list_in (x : string) (l : list string) : bool :=
  existsb (String.eqb x) l.

(** [c.lower()] on one ASCII character: 'A'..'Z' are shifted by 32. *)
Definition lower_char (c : ascii) : ascii :=
  let n := nat_of_ascii c in
  if (Nat.leb 65 n && Nat.leb n 90)%bool
  then ascii_of_nat (n + 32) else c.

(** [s.lower()] *)
Fixpoint lower (s : string) : string :=
  match s with
  | EmptyString => EmptyString
  | String c s' => String (lower_char c) (lower s')
  end.

(** One step of [posixpath.join]: an absolute component restarts the
    path, otherwise it is appended, with a separator unless the path so
    far is empty or already ends with one. *)
Definition join2 (path b : string) : string :=
  if startswith b "/" then b
  else if (String.eqb path "" || endswith_char path "/"%char)%bool
       then path +:+ b
       else path +:+ "/" +:+ b.

(** [os.path.join(a, *p)] *)
Definition join (a : string) (p : list string) : string :=
  fold_left join2 p a.

(** Values stored in the dictionaries of the module. *)
Inductive value :=
| VStr (s : string)
| VBool (b : bool)
| VNone.

(** Positional arguments handed to an exception constructor. *)
Inductive exc_arg :=
| ADict (d : gmap string value)
| AInt (n : Z)
| AStr (s : string).

Inductive exn :=
| ValueError (args : list exc_arg)
| TypeError (msg : string)
| KeyError (key : string)
| AttributeError (msg : string)
| FileNotFoundError (filename : string)
| NotImplementedError (msg : string).

(** The outcome of a call: a value, or a raised exception. *)
Inductive result (A : Type) :=
| Ok (a : A)
| Raise (e : exn).
Arguments Ok {A} a.
Arguments Raise {A} e.

Definition is_ok {A} (r : result A) : bool :=
  match r with Ok _ => true | Raise _ => false end.

(** [key in d.keys()] *)
Definition has_key (d : gmap string value) (key : string) : bool :=
  match d !! key with Some _ => true | None => false end.

(** ** The [typing] decorators

    A method is a function from its arguments to an outcome.  [overload]
    registers the function it is given and returns [_overload_dummy], which
    raises on every call; [abstractmethod], [override] and [final] only tag
    the function and return it. *)
Definition _overload_dummy {A B : Type} : A -> result B :=
  fun _ => Raise (NotImplementedError
    ("You should not call an overloaded function. " +:+
     "A series of @overload-decorated functions " +:+
     "outside a stub module should always be followed " +:+
     "by an implementation that is not @overload-ed.")).

Definition overload {A B : Type} (func : A -> result B) : A -> result B :=
  _overload_dummy.

Definition abstractmethod {A B : Type} (funcobj : A -> result B) : A -> result B :=
  funcobj.

Definition override {A B : Type} (arg : A -> result B) : A -> result B :=
  arg.

Definition final {A B : Type} (f : A -> result B) : A -> result B :=
  f.

End Py.
Import Py.

(* ===================================================================== *)
(** * Constants                                                            *)
(* ===================================================================== *)

Definition CACHE_FOLDERS : list string :=
  [ ".tox"; ".mypy_cache"; ".egg-info"; ".pytest_cache" ].

(* ===================================================================== *)
(** * Run-time records                                                     *)
(* ===================================================================== *)

Record AppConfig := mkAppConfig {
  home_dir : string;
  force_install : bool;
  ignore_compromised : bool;
  always_yes : bool;
  verbose : bool
}.

(** [class Vendor]: the class body only annotates [_name], [_version],
    [_is_secure] and [_login_method]; an instance carries such an attribute
    once something assigns it.  [_credentials] has a value in the class. *)
Record Vendor := mkVendor {
  _name : option string;
  _version : option string;
  _is_secure : option string;
  _login_method : option string;
  _credentials : gmap string string
}.

(** [@dataclass class Module]; the language specification is a reference
    that may be [None]. *)
Module Module_.
Record t (Specs : Type) := mk {
  name : string;
  language : string;
  language_specs : option Specs;
  project_files : list string;
  dependencies : list (gmap string value)
}.
Arguments mk {Specs} _ _ _ _ _.
Arguments name {Specs} _.
Arguments language {Specs} _.
Arguments language_specs {Specs} _.
Arguments project_files {Specs} _.
Arguments dependencies {Specs} _.
End Module_.

(** [@dataclass class LanguageSpecs], with the data fields and the two
    callables [parse_project] reads.  A callable field left at its default
    ([False], [None]) is not callable: [None] here. *)
Module LanguageSpecs.
Inductive t := mk {
  language_name : string;
  file_extensions : list string;
  comments : list string;
  is_docs_after_func : bool;
  project_files : list string;
  vendors_API : list Vendor;
  is_language : option (list string -> bool);
  project_loader : option (list string -> Module_.t t)
}.
End LanguageSpecs.

Abbreviation PyModule := (Module_.t LanguageSpecs.t).

(** [LanguageSpecs.parse_project(self, project_files)]; calling a field
    that still holds its default raises. *)
Definition parse_project (self : LanguageSpecs.t) (project_files : list string)
  : result (option PyModule) :=
  match LanguageSpecs.is_language self with
  | None => Raise (TypeError "'bool' object is not callable")
  | Some is_language =>
      if negb (is_language project_files) then Ok None
      else match LanguageSpecs.project_loader self with
           | None => Raise (TypeError "'NoneType' object is not callable")
           | Some project_loader => Ok (Some (project_loader project_files))
           end
  end.

(** An entry of the plug-in manifest, [data["plugins"][i]]: a dictionary
    with the four keys the loader reads. *)
Module Plugin.
Record t := mk {
  name : string;
  version : string;
  vendor : string;
  timestamp : string
}.
End Plugin.

(** The configuration dictionary [init_librarian] returns, as far as
    [AppResources] reads it. *)
Record ResourceData := mkResourceData {
  plugins : list Plugin.t
}.

(** ** Module globals and the outside world

    [APP_CONFIG], [_ID_COUNTER] and the class attribute
    [AppResources._languages] are process-wide and mutable; [stdout] keeps
    the lines handed to [print]; [plugin_files] maps the path of every
    readable plug-in descriptor file to the object pickled in it. *)
Record World := mkWorld {
  APP_CONFIG : AppConfig;
  _ID_COUNTER : Z;
  _languages : list LanguageSpecs.t;
  stdout : list string;
  plugin_files : gmap string LanguageSpecs.t
}.

(** Code that reads or writes the globals and may raise: the world is
    threaded through, and survives an exception. *)
Definition M (A : Type) : Type := World -> result A * World.

#[global] Instance M_ret : MRet M := fun A a w => (Ok a, w).

#[global] Instance M_bind : MBind M := fun A B f m w =>
  match m w with
  | (Ok a, w') => f a w'
  | (Raise e, w') => (Raise e, w')
  end.

Definition raise {A} (e : exn) : M A := fun w => (Raise e, w).

Definition get_config : M AppConfig := fun w => (Ok (APP_CONFIG w), w).

(** [print(line)] *)
Definition print (line : string) : M unit := fun w =>
  (Ok tt, mkWorld (APP_CONFIG w) (_ID_COUNTER w) (_languages w)
                  (stdout w ++ [line]) (plugin_files w)).

(** [try: body except FileNotFoundError: handler] *)
Definition try_except_FileNotFoundError {A} (body handler : M A) : M A := fun w =>
  match body w with
  | (Raise (FileNotFoundError _), w') => handler w'
  | outcome => outcome
  end.

(** [for x in l: body(x)] *)
Fixpoint for_each {A} (l : list A) (body : A -> M unit) : M unit :=
  match l with
  | [] => mret tt
  | x :: l' => body x ;; for_each l' body
  end.

(* ===================================================================== *)
(** * File-system functionality: the project scanner                      *)
(* ===================================================================== *)

Module Scanner.

(** A directory as [os.scandir] shows it: the names of its plain files and
    its sub-directories, in the order the operating system lists them. *)
Inductive Dir := mkDir {
  files : list string;
  subdirs : list (string * Dir)
}.

(** [os.listdir(path)]: every entry name, files and directories alike. *)
Definition listdir (d : Dir) : list string :=
  map fst (subdirs d) ++ files d.

(** [os.walk(top)], top-down, on a POSIX system: the triple of the
    directory itself, then the walk of each sub-directory under
    [join(top, dirname)].  Symbolic links and unreadable directories are
    outside this model. *)
Fixpoint walk (top : string) (d : Dir) : list (string * list string * list string) :=
  match d with
  | mkDir fs ds =>
      (top, map fst ds, fs) ::
      (fix walk_dirs (l : list (string * Dir)) :=
         match l with
         | [] => []
         | (dirname, sub) :: l' => walk (join top [dirname]) sub ++ walk_dirs l'
         end) ds
  end.

(** [load_module(path)] *)
Definition load_module (path : string) : PyModule :=
  Module_.mk path path None [] [].

(** The inner loop of [load_project]: [skip] becomes true as soon as one
    cache folder name occurs in [dirpath]. *)
Definition skip_flag (dirpath : string) : bool :=
  fold_left (fun skip cache_folder =>
               if str_in cache_folder dirpath then true else skip)
            CACHE_FOLDERS false.

(** The outer loop of [load_project] over the walk. *)
Definition positions (path : string) (tree : Dir) : list string :=
  fold_left (fun positions '(dirpath, dirname, files) =>
               if skip_flag dirpath then positions
               else if list_in "README.md" files then positions ++ [dirpath]
               else positions)
            (walk path tree) [].

(** [load_project(path)], where [tree] is the directory found at [path]. *)
Definition load_project (tree : Dir) (path : string) : result (list PyModule) :=
  if negb (list_in "README.md" (listdir tree))
  then Raise (ValueError [AStr path; AStr "Path no containing README.md"])
  else Ok (fold_left (fun result module => result ++ [load_module module])
                     (positions path tree) []).

(** The directories [os.walk] visits, each with the path it is given. *)
Fixpoint visit (top : string) (d : Dir) : list (string * Dir) :=
  match d with
  | mkDir fs ds =>
      (top, d) ::
      (fix visit_dirs (l : list (string * Dir)) :=
         match l with
         | [] => []
         | (dirname, sub) :: l' => visit (join top [dirname]) sub ++ visit_dirs l'
         end) ds
  end.

(** Entry names as a file system hands them out: no name contains the
    path separator. *)
Fixpoint wf_names (d : Dir) : bool :=
  match d with
  | mkDir fs ds =>
      forallb (fun f => negb (str_in "/" f)) fs &&
      (fix wf_dirs (l : list (string * Dir)) :=
         match l with
         | [] => true
         | (dirname, sub) :: l' =>
             negb (str_in "/" dirname) && wf_names sub && wf_dirs l'
         end) ds
  end.

(** The test a walked directory has to pass to be recorded. *)
Definition qualifies (entry : string * list string * list string) : bool :=
  negb (skip_flag entry.1.1) && list_in "README.md" entry.2.

(** ** The scenario tree: [README.md], [lib/README.md] and
    [.pytest_cache/README.md]. *)
Definition readme_dir : Dir := mkDir ["README.md"] [].

Definition scenario_subdirs : list (string * Dir) :=
  [("lib", readme_dir); (".pytest_cache", readme_dir)].

Definition scenario_tree : Dir := mkDir ["README.md"] scenario_subdirs.

(** ** Step 5 of the scanner as the specification words it

    The owning specification of a directory is the first registered one
    that declares a marker file present in the directory; its project
    loader builds the module. *)
Definition owning_spec (registry : list LanguageSpecs.t) (files : list string)
  : option LanguageSpecs.t :=
  List.find (fun spec =>
               existsb (fun marker => list_in marker files)
                       (LanguageSpecs.project_files spec))
            registry.

Definition scanner_uses_loader (registry : list LanguageSpecs.t)
    (tree : Dir) (path : string) : Prop :=
  forall mods dirpath dirnames fs spec loader,
    load_project tree path = Ok mods ->
    (dirpath, dirnames, fs) ∈ walk path tree ->
    qualifies (dirpath, dirnames, fs) = true ->
    owning_spec registry fs = Some spec ->
    LanguageSpecs.project_loader spec = Some loader ->
    loader fs ∈ mods.

(** A registry with one specification that claims directories holding
    [setup.py], and a project it claims. *)
Definition python_specs : LanguageSpecs.t :=
  LanguageSpecs.mk "Python" ["py"] ["#"] false ["setup.py"] []
    (Some (fun fs => list_in "setup.py" fs))
    (Some (fun fs => Module_.mk "package" "python" None fs [])).

Definition python_tree : Dir := mkDir ["README.md"; "setup.py"] [].

End Scanner.


(* ===================================================================== *)
(** * Exact data types: document cells                                    *)
(* ===================================================================== *)

Inductive DocumentCellType :=
| paragraph | link_text | link_external | table | code | image | field
| header_1 | header_2 | header_3 | header_4 | header_5
| header_6 | header_7 | header_8 | header_9 | header_10.

#[global] Instance DocumentCellType_eq_dec : EqDecision DocumentCellType.
Proof. solve_decision. Defined.

(** [_id_generator()]: bump the global counter and return it. *)
Definition _id_generator : M Z := fun w =>
  let n := _ID_COUNTER w + 1 in
  (Ok n, mkWorld (APP_CONFIG w) n (_languages w) (stdout w) (plugin_files w)).

Module DocumentCell.

Record t := mk {
  raw_content : string;
  additional_content : gmap string value;
  id : Z;
  type : DocumentCellType
}.

(** [raise ValueError(self.additional_content, self.id, msg)] *)
Definition invalid (self : t) (msg : string) : M unit :=
  raise (ValueError [ADict (additional_content self); AInt (id self); AStr msg]).

(** [self.additional_content["target"].startswith("https")] *)
Definition target_startswith_https (self : t) : M bool :=
  match additional_content self !! "target" with
  | None => raise (KeyError "target")
  | Some (VStr target) => mret (startswith target "https")
  | Some _ => raise (AttributeError "startswith")
  end.

(** The validation that runs at the end of every construction. *)
Definition __post_init__ (self : t) : M unit :=
  APP_CONFIG ← get_config;
  (if bool_decide (type self = field)
   then if negb (has_key (additional_content self) "name")
           || negb (has_key (additional_content self) "label")
        then invalid self "Fields must contain name and text label"
        else mret tt
   else mret tt) ;;
  (if bool_decide (type self ∈ [link_text; link_external])
   then if negb (has_key (additional_content self) "target")
        then invalid self "Links must contain target information!"
        else mret tt
   else mret tt) ;;
  (if bool_decide (type self = link_external)
   then secure ← target_startswith_https self;
        if negb secure && negb (force_install APP_CONFIG)
        then invalid self "External links must contain https schema"
        else mret tt
   else mret tt) ;;
  (if bool_decide (type self = code)
   then if negb (has_key (additional_content self) "lang")
        then invalid self "Code sections must contain language, at least empty key"
        else mret tt
   else mret tt) ;;
  (if bool_decide (type self = image)
   then if negb (has_key (additional_content self) "src")
        then invalid self "Images must contain link to source, at least network"
        else mret tt
   else mret tt).

(** The constructor the [dataclass] decorator generates: the fields are
    filled in declaration order, an absent [additional_content] or [id]
    by its default factory, an absent [type] by [paragraph]; then the
    cell validates itself. *)
Definition __init__ (raw_content : string)
    (additional_content : option (gmap string value))
    (id : option Z) (type : option DocumentCellType) : M t :=
  let additional_content := default ∅ additional_content in
  id ← match id with Some n => mret n | None => _id_generator end;
  let self := mk raw_content additional_content id (default paragraph type) in
  __post_init__ self ;;
  mret self.

(** The [centralized], [as_class], [as_text] and [to_...] parameters
    default to [False] in the source. *)
Definition create_paragraph (text : string) (centralized : bool) : M t :=
  __init__ text (Some {[ "centralize" := VBool centralized ]}) None None.

Definition create_text_link (text to : string) (as_class as_text : bool) : M t :=
  __init__ text
    (Some (<["to" := VStr to]> (<["as_class" := VBool as_class]>
             {[ "as_text" := VBool as_text ]})))
    None (Some link_text).

Definition create_external_link (text to : string)
    (as_class as_text to_twitter to_meta to_github to_gitlab
     to_vk to_email to_slack : bool) : M t :=
  APP_CONFIG ← get_config;
  (if negb (ignore_compromised APP_CONFIG) then mret tt else mret tt) ;;
  __init__ text
    (Some (<["to" := VStr to]> (<["as_class" := VBool as_class]>
          (<["as_text" := VBool as_text]> (<["to_twitter" := VBool to_twitter]>
          (<["to_meta" := VBool to_meta]> (<["to_github" := VBool to_github]>
          (<["to_gitlab" := VBool to_gitlab]> (<["to_vk" := VBool to_vk]>
          (<["to_email" := VBool to_email]>
             {[ "to_slack" := VBool to_slack ]}))))))))))
    None (Some link_external).

End DocumentCell.

(* ===================================================================== *)
(** * Run-time resources: the plug-in registry                            *)
(* ===================================================================== *)

Module AppResources.

(** [open(path, "rb")] followed by [pickle_load(file)]: the object stored
    in a descriptor file, or [FileNotFoundError]. *)
Definition open_and_load (path : string) : M LanguageSpecs.t := fun w =>
  match plugin_files w !! path with
  | Some object => (Ok object, w)
  | None => (Raise (FileNotFoundError path), w)
  end.

(** [self._languages.append(object)] *)
Definition languages_append (object : LanguageSpecs.t) : M unit := fun w =>
  (Ok tt, mkWorld (APP_CONFIG w) (_ID_COUNTER w) (_languages w ++ [object])
                  (stdout w) (plugin_files w)).

(** [data.pop(plugin)]: [data] is a dictionary and the key handed to
    [pop] is the manifest entry, itself a dictionary; hashing it raises. *)
Definition data_pop (data : ResourceData) (plugin : Plugin.t) : M unit :=
  raise (TypeError "unhashable type: 'dict'").

(** Where the descriptor of a plug-in is expected. *)
Definition descriptor_path (config : AppConfig) (plugin : Plugin.t) : string :=
  join (home_dir config) ["plugins"; Plugin.name plugin +:+ ".obj"].

Section Loader.

(** Two collaborators outside the module's own logic: the [install]
    command object and the interactive [Confirm.ask] prompt. *)
Variable install : string -> M unit.
Variable Confirm_ask : string -> M bool.

(** The body of the [try] statement for one manifest entry. *)
Definition load_plugin (plugin : Plugin.t) : M unit :=
  APP_CONFIG ← get_config;
  (if verbose APP_CONFIG
   then print ("[dim][VERBOSE] Loading plugin " +:+ Plugin.name plugin) ;;
        print ("[dim][VERBOSE]	 Version: " +:+ Plugin.version plugin) ;;
        print ("[dim][VERBOSE]	 Vendor: " +:+ Plugin.vendor plugin) ;;
        print ("[dim][VERBOSE]	 Timestamp: " +:+ Plugin.timestamp plugin)
   else mret tt) ;;
  object ← open_and_load (descriptor_path APP_CONFIG plugin);
  languages_append object.

(** The [except FileNotFoundError] clause. *)
Definition damaged_plugin (data : ResourceData) (plugin : Plugin.t) : M unit :=
  data_pop data plugin ;;
  print ("[bold red]Damaged plugin: " +:+ Plugin.name plugin) ;;
  print "[bold red blink] PLUGIN IS DAMAGED!" ;;
  APP_CONFIG ← get_config;
  if always_yes APP_CONFIG
  then install (Plugin.vendor plugin +:+ ":" +:+ Plugin.name plugin)
  else
    reinstall ← Confirm_ask "Reinstall plugin?";
    if reinstall : bool
    then install (Plugin.vendor plugin +:+ ":" +:+ Plugin.name plugin)
    else print "[bold red blink] PLUGIN DELETED AND NOT LOADED! CONTINUE!".

(** [AppResources.__init__(self, data)] *)
Definition __init__ (data : ResourceData) : M unit :=
  if (length (plugins data) =? 0)%nat then mret tt
  else for_each (plugins data) (fun plugin =>
         try_except_FileNotFoundError (load_plugin plugin)
                                      (damaged_plugin data plugin)).

End Loader.

(** [get_all_languages(self)] *)
Definition get_all_languages (_languages : list LanguageSpecs.t) : list string :=
  map (fun lang => lower (LanguageSpecs.language_name lang)) _languages.

(** [is_language_exists(self, lang)] *)
Definition is_language_exists (_languages : list LanguageSpecs.t) (lang : string) : bool :=
  list_in lang (get_all_languages _languages).

(** ** Sample data *)

Definition quiet_config : AppConfig :=
  mkAppConfig "/home/user/.librarian" false false false false.

Definition python_plugin : Plugin.t := Plugin.mk "python" "0.0.1" "core" "0".
Definition cpython_plugin : Plugin.t := Plugin.mk "cpython" "0.0.1" "core" "1".

Definition python_descriptor : LanguageSpecs.t :=
  LanguageSpecs.mk "Python" ["py"] ["#"] false ["setup.py"] [] None None.

(** A fresh process: nothing registered, nothing printed, no descriptor
    file on disk. *)
Definition fresh_world : World := mkWorld quiet_config 0 [] [] ∅.

(** The same, with the descriptors of two plug-ins on disk; both describe
    the language [Python]. *)
Definition installed_world : World :=
  mkWorld quiet_config 0 [] []
    (<["/home/user/.librarian/plugins/python.obj" := python_descriptor]>
       {[ "/home/user/.librarian/plugins/cpython.obj" := python_descriptor ]}).

(** Stand-ins for the two collaborators, for evaluating concrete runs. *)
Definition install_nothing : string -> M unit := fun _ => mret tt.
Definition Confirm_no : string -> M bool := fun _ => mret false.

End AppResources.

(* ===================================================================== *)
(** * Vendors and dependencies                                             *)
(* ===================================================================== *)

Module LocalVendor.

(** [class LocalVendor(Vendor)] with its list of search paths. *)
Record t := mk {
  base : Vendor;
  _locations : list string
}.

(** The body both definitions of [find] share: a docstring and [...];
    falling off the end returns [None]. *)
Definition find_body {D : Type} (args : t * string * option string) : result (option D) :=
  Ok None.

(** [find] as the class ends up holding it: the last definition, under
    [@override @overload @abstractmethod]. *)
Definition find {D : Type} : t * string * option string -> result (option D) :=
  override (overload (abstractmethod find_body)).

(** [register_path], under [@final @overload]. *)
Definition register_path_body (args : t * list string) : result unit :=
  Ok tt.

Definition register_path : t * list string -> result unit :=
  final (overload register_path_body).

End LocalVendor.

Module Dependency.

Record t := mk {
  name : string;
  version : string;
  vendor : Vendor;
  license : string;
  machine_name : string;
  description : string
}.

(** What [to_json] places in the dictionary it hands to [json.dumps]. *)
Inductive json_arg :=
| JStr (s : string)
| JVendor (v : Vendor).

Section Json.

(** The string encoder of the [json] package (quoting and escaping). *)
Variable encode_basestring : string -> string.

(** Encoding of one value: a string is encoded, any other object goes to
    [JSONEncoder.default], which raises (the message names the class of
    the object). *)
Definition encode_value (o : json_arg) : result string :=
  match o with
  | JStr s => Ok (encode_basestring s)
  | JVendor _ => Raise (TypeError "Object of type Vendor is not JSON serializable")
  end.

(** The items of a dictionary, encoded left to right and joined. *)
Fixpoint encode_items (items : list (string * json_arg)) : result (list string) :=
  match items with
  | [] => Ok []
  | (key, o) :: items' =>
      match encode_value o with
      | Raise e => Raise e
      | Ok chunk =>
          match encode_items items' with
          | Raise e => Raise e
          | Ok chunks => Ok ((encode_basestring key +:+ ": " +:+ chunk) :: chunks)
          end
      end
  end.

(** [json.dumps(obj)] for a dictionary with string keys. *)
Definition dumps (obj : list (string * json_arg)) : result string :=
  match encode_items obj with
  | Raise e => Raise e
  | Ok chunks => Ok ("{" +:+ String.concat ", " chunks +:+ "}")
  end.

(** [Dependency.to_json(self)]: the dictionary display is evaluated first,
    entry by entry, then handed to [dumps]. *)
Definition to_json (self : t) : result string :=
  match _name (vendor self) with
  | None => Raise (AttributeError "_name")
  | Some vendor_name =>
      dumps [ ("name", JStr (name self));
              ("version", JVendor (vendor self));
              ("vendor", JStr vendor_name);
              ("license", JStr (license self)) ]
  end.

End Json.

Definition local_vendor : Vendor :=
  mkVendor (Some "local") (Some "0.0.1") None None
           (<["login" := ""]> (<["password" := ""]> {[ "token" := "" ]})).

Definition requests_dependency : t :=
  mk "requests" "2.31.0" local_vendor "Apache-2.0" "requests" "".

End Dependency.

(* ===================================================================== *)
(** * Further run-time code                                                *)
(* ===================================================================== *)

(** ** Construction of the configuration *)

Module Config.

(** [AppConfig.__post_init__(self)] *)
Definition __post_init__ (self : AppConfig) : M unit :=
  (if ignore_compromised self
   then print "[yellow bold blink][!] Enabled unsecure methods!"
   else mret tt) ;;
  (if ignore_compromised self && verbose self
   then print "[dim][VERBOSE][bold yellow] Recommendation:" ;;
        for_each
          [ "We not recommend to turn off all security checks during runtime!";
            "Run with this mode only if You really checked all dependencies and";
            "really sure that all is ok!" ]
          (fun line => print ("[dim][VERBOSE]	" +:+ line))
   else mret tt).

(** The constructor the [dataclass] decorator generates. *)
Definition __init__ (home_dir : string)
    (force_install ignore_compromised always_yes verbose : bool) : M AppConfig :=
  let self := mkAppConfig home_dir force_install ignore_compromised always_yes verbose in
  __post_init__ self ;;
  mret self.

End Config.

(** ** The other queries of the registry *)

Module Catalog.

(** [get_all_file_extensions(self)] *)
Definition get_all_file_extensions (_languages : list LanguageSpecs.t) : list string :=
  fold_left (fun result lang => result ++ LanguageSpecs.file_extensions lang)
            _languages [].

(** [get_all_project_files(self)] *)
Definition get_all_project_files (_languages : list LanguageSpecs.t) : list string :=
  fold_left (fun result lang => result ++ LanguageSpecs.project_files lang)
            _languages [].

(** The lines the verbose mode prints for one manifest entry. *)
Definition verbose_lines (plugin : Plugin.t) : list string :=
  [ "[dim][VERBOSE] Loading plugin " +:+ Plugin.name plugin;
    "[dim][VERBOSE]	 Version: " +:+ Plugin.version plugin;
    "[dim][VERBOSE]	 Vendor: " +:+ Plugin.vendor plugin;
    "[dim][VERBOSE]	 Timestamp: " +:+ Plugin.timestamp plugin ].

(** A summary of what the loading loop does to a manifest, read off the
    descriptor files alone: whether the loop gets to the end, the objects
    it appends and the entries it gets to look at. *)
Fixpoint load_trace (config : AppConfig) (files : gmap string LanguageSpecs.t)
    (manifest : list Plugin.t) : bool * list LanguageSpecs.t * list Plugin.t :=
  match manifest with
  | [] => (true, [], [])
  | plugin :: manifest' =>
      match files !! AppResources.descriptor_path config plugin with
      | Some object =>
          let '(finished, loaded, seen) := load_trace config files manifest' in
          (finished, object :: loaded, plugin :: seen)
      | None => (false, [], [plugin])
      end
  end.

End Catalog.

(** ** Loaders of a language specification *)

Module Specs.

(** [self.project_files.index(project_file)]: the position of the first
    occurrence. *)
Fixpoint index (project_file : string) (l : list string) : option nat :=
  match l with
  | [] => None
  | x :: l' =>
      if String.eqb x project_file then Some 0%nat
      else option_map S (index project_file l')
  end.

(** How a call of [get_loader] ends. *)
Inductive outcome (A : Type) :=
| Returns (a : A)
| RaisesValueError
| RaisesTypeError
| RaisesIndexError.
Arguments Returns {A} a.
Arguments RaisesValueError {A}.
Arguments RaisesTypeError {A}.
Arguments RaisesIndexError {A}.

(** [LanguageSpecs.get_loader(self, project_file)].  The list
    [self.project_files_loaders] is handed over next to [self]; it is
    [None] when the field was left at its default, and subscripting
    [None] raises [TypeError]; [list.index] raises [ValueError] on an
    absent element and the subscript [IndexError] past the end. *)
Definition get_loader (self : LanguageSpecs.t)
    (project_files_loaders : option (list (string -> PyModule)))
    (project_file : string) : outcome (option (string -> PyModule)) :=
  if negb (list_in project_file (LanguageSpecs.project_files self))
  then Returns None
  else
    match project_files_loaders with
    | None => RaisesTypeError
    | Some loaders =>
        match index project_file (LanguageSpecs.project_files self) with
        | None => RaisesValueError
        | Some i =>
            match loaders !! i with
            | Some loader => Returns (Some loader)
            | None => RaisesIndexError
            end
        end
    end.

End Specs.

(** ** What the validation of a document cell comes to

    The exception [__post_init__] ends with, if any, as a table over the
    cell type. *)
Definition rejection (config : AppConfig) (self : DocumentCell.t) : option exn :=
  let attrs := DocumentCell.additional_content self in
  let error msg := Some (ValueError [ADict attrs; AInt (DocumentCell.id self); AStr msg]) in
  match DocumentCell.type self with
  | field =>
      if has_key attrs "name" && has_key attrs "label" then None
      else error "Fields must contain name and text label"
  | link_text =>
      if has_key attrs "target" then None
      else error "Links must contain target information!"
  | link_external =>
      match attrs !! "target" with
      | None => error "Links must contain target information!"
      | Some (VStr target) =>
          if startswith target "https" || force_install config then None
          else error "External links must contain https schema"
      | Some _ => Some (AttributeError "startswith")
      end
  | code =>
      if has_key attrs "lang" then None
      else error "Code sections must contain language, at least empty key"
  | image =>
      if has_key attrs "src" then None
      else error "Images must contain link to source, at least network"
  | _ => None
  end.

(** Entry names as a file system hands them out, in full: no name is
    empty or contains the separator, and no directory lists a name
    twice. *)
Fixpoint proper_names (d : Scanner.Dir) : bool :=
  match d with
  | Scanner.mkDir fs ds =>
      bool_decide (NoDup (map fst ds)) &&
      (fix proper_dirs (l : list (string * Scanner.Dir)) :=
         match l with
         | [] => true
         | (dirname, sub) :: l' =>
             negb (String.eqb dirname "") && negb (str_in "/" dirname)
             && proper_names sub && proper_dirs l'
         end) ds
  end.
(* ===================================================================== *)
(** * Facts about the string built-ins                                    *)
(* ===================================================================== *)

Module PyFacts.

Lemma append_assoc (a b c : string) : (a +:+ b) +:+ c = a +:+ (b +:+ c).
Proof. induction a as [|x a IH]; [reflexivity | simpl; f_equal; exact IH]. Qed.

Lemma append_nil_r (a : string) : a +:+ "" = a.
Proof. induction a as [|x a IH]; [reflexivity | simpl; f_equal; exact IH]. Qed.

Lemma startswith_nil (s : string) : startswith s "" = true.
Proof. now destruct s. Qed.

(** [startswith] is exactly "has this prefix". *)
Lemma startswith_spec (s p : string) :
  startswith s p = true <-> exists r, s = p +:+ r.
Proof.
  revert s; induction p as [|a p IH]; intros s.
  - rewrite startswith_nil. split; [exists s; reflexivity | reflexivity].
  - destruct s as [|b s]; simpl.
    + split; [discriminate | intros [r Hr]; discriminate].
    + rewrite andb_true_iff, Ascii.eqb_eq, IH. split.
      * intros [-> [r ->]]. now exists r.
      * intros [r Hr]. injection Hr as -> ->. split; [reflexivity | now exists r].
Qed.

Lemma startswith_app (s p q : string) :
  startswith s p = true -> startswith (s +:+ q) p = true.
Proof.
  rewrite !startswith_spec. intros [r ->]. exists (r +:+ q).
  apply append_assoc.
Qed.

(** [str_in] is exactly "occurs as a contiguous substring". *)
Lemma str_in_spec (sub s : string) :
  str_in sub s = true <-> exists a b, s = a +:+ sub +:+ b.
Proof.
  induction s as [|c s IH].
  - cbn [str_in]. rewrite orb_false_r, startswith_spec. split.
    + intros [r Hr]. now exists "", r.
    + intros [a [b Hab]]. destruct a; [now exists b | discriminate].
  - cbn [str_in]. rewrite orb_true_iff, IH, startswith_spec. split.
    + intros [[r Hr] | [a [b Hab]]].
      * now exists "", r.
      * exists (String c a), b. simpl. now rewrite Hab.
    + intros [a [b Hab]]. destruct a as [|x a]; simpl in Hab.
      * left. now exists b.
      * right. injection Hab as _ ->. now exists a, b.
Qed.

(** Extending a string on the right keeps every occurrence. *)
Lemma str_in_app_l (sub p q : string) :
  str_in sub p = true -> str_in sub (p +:+ q) = true.
Proof.
  rewrite !str_in_spec. intros [a [b ->]]. exists a, (b +:+ q).
  now rewrite !append_assoc.
Qed.

Lemma str_in_app_r (sub p q : string) :
  str_in sub q = true -> str_in sub (p +:+ q) = true.
Proof.
  rewrite !str_in_spec. intros [a [b ->]]. exists (p +:+ a), b.
  now rewrite !append_assoc.
Qed.

Lemma endswith_char_snoc (s : string) (d : ascii) :
  endswith_char (s +:+ String d "") d = true.
Proof.
  induction s as [|c s IH]; simpl.
  - apply Ascii.eqb_refl.
  - destruct (s +:+ String d "") eqn:E; [now destruct s | exact IH].
Qed.

(** One more character at the end creates a new prefix match only when
    the pattern is the whole extended string. *)
Lemma startswith_snoc (s sub : string) (d : ascii) :
  startswith (s +:+ String d "") sub = true ->
  startswith s sub = true \/ sub = s +:+ String d "".
Proof.
  revert sub; induction s as [|c s IH]; intros sub; simpl.
  - destruct sub as [|a [|b sub]]; simpl; auto.
    + rewrite andb_true_r, Ascii.eqb_eq. intros ->. now right.
    + rewrite andb_false_r. discriminate.
  - destruct sub as [|a sub]; [now left|].
    rewrite andb_true_iff. intros [Ha Hs].
    destruct (IH _ Hs) as [H | ->].
    + left. now rewrite Ha, H.
    + right. apply Ascii.eqb_eq in Ha. now subst.
Qed.

(** Appending a character that is not the last one of [sub] creates no
    new occurrence of [sub]. *)
Lemma str_in_snoc (sub s : string) (d : ascii) :
  endswith_char sub d = false ->
  str_in sub (s +:+ String d "") = str_in sub s.
Proof.
  intros Hd. induction s as [|c s IH].
  - simpl. rewrite !orb_false_r.
    destruct sub as [|a [|b sub]]; simpl in *; try reflexivity.
    + now rewrite Hd.
    + now rewrite andb_false_r.
  - change (String c s +:+ String d "") with (String c (s +:+ String d "")).
    cbn [str_in]. rewrite IH.
    destruct (startswith (String c (s +:+ String d "")) sub) eqn:E.
    + destruct (startswith_snoc (String c s) sub d E) as [H | ->].
      * now rewrite H.
      * now rewrite endswith_char_snoc in Hd.
    + destruct (startswith (String c s) sub) eqn:E'; [|reflexivity].
      apply (startswith_app _ _ (String d "")) in E'.
      change (String c s +:+ String d "") with (String c (s +:+ String d "")) in E'.
      congruence.
Qed.

(** What [join] does with a relative component. *)
Lemma join2_relative (path b : string) :
  startswith b "/" = false ->
  join2 path b = path +:+ b \/ join2 path b = path +:+ "/" +:+ b.
Proof. unfold join2. intros ->. destruct (_ || _)%bool; auto. Qed.

Lemma join2_extends (path b : string) :
  startswith b "/" = false -> exists q, join2 path b = path +:+ q.
Proof. intros H. destruct (join2_relative path b H) as [-> | ->]; eauto. Qed.

(** The built-ins on a few inputs. *)
Example startswith_examples :
  startswith "https://example.org" "https" = true /\
  startswith "http://example.org" "https" = false /\
  startswith "" "" = true.
Proof. repeat split. Qed.

Example str_in_examples :
  str_in ".tox" "/repo/.tox/py311" = true /\
  str_in ".tox" "/repo/tox" = false /\
  str_in "" "" = true.
Proof. repeat split. Qed.

Example join_examples :
  join "/home/user" ["plugins"; "python.obj"] = "/home/user/plugins/python.obj" /\
  join "repo/" ["lib"] = "repo/lib" /\
  join "" ["lib"] = "lib" /\
  join "repo" ["/etc"] = "/etc".
Proof. repeat split. Qed.

Example lower_examples :
  lower "PyThon 3" = "python 3" /\ lower "c++" = "c++".
Proof. repeat split. Qed.

End PyFacts.

(* ===================================================================== *)
(** * The project scanner                                                  *)
(* ===================================================================== *)

Module ScannerFacts.
Import PyFacts Scanner.

(** Structural induction on directory trees, with the hypothesis for every
    sub-directory. *)
Lemma Dir_ind' (P : Dir -> Prop) :
  (forall fs ds, Forall (fun e => P e.2) ds -> P (mkDir fs ds)) ->
  forall d, P d.
Proof.
  intros step. fix IH 1. intros [fs ds]. apply step.
  induction ds as [|[n sub] ds IHds]; constructor; [apply IH | exact IHds].
Qed.

Lemma walk_unfold top fs ds :
  walk top (mkDir fs ds) =
  (top, map fst ds, fs) :: flat_map (fun e => walk (join top [e.1]) e.2) ds.
Proof.
  simpl. f_equal. induction ds as [|[n sub] ds IH]; [reflexivity|].
  simpl. now rewrite IH.
Qed.

Lemma visit_unfold top fs ds :
  visit top (mkDir fs ds) =
  (top, mkDir fs ds) :: flat_map (fun e => visit (join top [e.1]) e.2) ds.
Proof.
  simpl. f_equal. induction ds as [|[n sub] ds IH]; [reflexivity|].
  simpl. now rewrite IH.
Qed.

Lemma wf_names_unfold fs ds :
  wf_names (mkDir fs ds) =
  forallb (fun f => negb (str_in "/" f)) fs &&
  forallb (fun e => negb (str_in "/" e.1) && wf_names e.2) ds.
Proof.
  simpl. f_equal. induction ds as [|[n sub] ds IH]; [reflexivity|].
  cbn [forallb fst snd]. now rewrite IH.
Qed.

(** [walk] reports exactly the visited directories. *)
Lemma walk_visit top d :
  walk top d = map (fun e => (e.1, map fst (subdirs e.2), files e.2)) (visit top d).
Proof.
  revert top; induction d as [fs ds IH] using Dir_ind'; intros top.
  rewrite walk_unfold, visit_unfold. cbn [map fst snd subdirs files]. f_equal.
  induction IH as [|[n sub] ds Hsub _ IHds]; [reflexivity|].
  cbn [flat_map fst snd]. now rewrite map_app, Hsub, IHds.
Qed.

(** The inner loop computes a disjunction. *)
Lemma skip_loop (f : string -> bool) l acc :
  fold_left (fun skip cache_folder => if f cache_folder then true else skip) l acc
  = acc || existsb f l.
Proof.
  revert acc; induction l as [|x l IH]; intros acc; simpl.
  - now rewrite orb_false_r.
  - rewrite IH. destruct (f x), acc; reflexivity.
Qed.

Lemma skip_flag_true dirpath :
  skip_flag dirpath = true <->
  exists cache_folder, cache_folder ∈ CACHE_FOLDERS /\ str_in cache_folder dirpath = true.
Proof.
  unfold skip_flag. rewrite skip_loop, orb_false_l, existsb_exists.
  split; intros [x [Hx Hin]]; exists x; split; auto; now apply list_elem_of_In.
Qed.

Lemma skip_flag_false dirpath :
  skip_flag dirpath = false <->
  forall cache_folder, cache_folder ∈ CACHE_FOLDERS -> str_in cache_folder dirpath = false.
Proof.
  split.
  - intros H cf Hcf. destruct (str_in cf dirpath) eqn:E; [|reflexivity].
    assert (skip_flag dirpath = true) by (apply skip_flag_true; eauto). congruence.
  - intros H. destruct (skip_flag dirpath) eqn:E; [|reflexivity].
    apply skip_flag_true in E as [cf [Hcf Hin]]. rewrite (H cf Hcf) in Hin. discriminate.
Qed.

(** A cache folder name in a path stays in every extension of the path. *)
Lemma skip_flag_app p q : skip_flag p = true -> skip_flag (p +:+ q) = true.
Proof.
  rewrite !skip_flag_true. intros [cf [Hcf Hin]]. exists cf. split; [exact Hcf|].
  now apply str_in_app_l.
Qed.

(** The outer loop is a filter. *)
Lemma positions_loop l acc :
  fold_left (fun positions '(dirpath, dirname, files) =>
               if skip_flag dirpath then positions
               else if list_in "README.md" files then positions ++ [dirpath]
               else positions) l acc
  = acc ++ map (fun e => e.1.1) (List.filter qualifies l).
Proof.
  revert acc; induction l as [|[[dp dn] fs] l IH]; intros acc; simpl.
  - now rewrite app_nil_r.
  - rewrite IH. unfold qualifies at 2. cbn [fst snd].
    destruct (skip_flag dp); simpl; [reflexivity|].
    destruct (list_in "README.md" fs); simpl; [|reflexivity].
    now rewrite <- app_assoc.
Qed.

Lemma positions_filter path tree :
  positions path tree = map (fun e => e.1.1) (List.filter qualifies (walk path tree)).
Proof. unfold positions. now rewrite positions_loop. Qed.

Lemma modules_loop l acc :
  fold_left (fun result module => result ++ [load_module module]) l acc
  = acc ++ map load_module l.
Proof.
  revert acc; induction l as [|p l IH]; intros acc; simpl.
  - now rewrite app_nil_r.
  - now rewrite IH, <- app_assoc.
Qed.

(** [load_project] either raises on the missing top-level [README.md] or
    returns one module per recorded position. *)
Lemma load_project_ok tree path mods :
  load_project tree path = Ok mods ->
  list_in "README.md" (listdir tree) = true /\
  mods = map load_module (positions path tree).
Proof.
  unfold load_project. destruct (list_in _ _); simpl; [|discriminate].
  intros [= <-]. now rewrite modules_loop.
Qed.

Lemma elem_of_positions p path tree :
  p ∈ positions path tree <->
  exists dirnames fs,
    (p, dirnames, fs) ∈ walk path tree /\ qualifies (p, dirnames, fs) = true.
Proof.
  rewrite positions_filter, list_elem_of_fmap. split.
  - intros [[[dp dn] fs] [-> Hin]]. apply list_elem_of_In, filter_In in Hin as [Hin Hq].
    exists dn, fs. split; [now apply list_elem_of_In | exact Hq].
  - intros [dn [fs [Hin Hq]]]. exists (p, dn, fs). split; [reflexivity|].
    apply list_elem_of_In, filter_In. split; [now apply list_elem_of_In | exact Hq].
Qed.

(** Under well-formed names every directory below [top] is walked under a
    path that extends [top]. *)
Lemma visit_extends d :
  forall top p' d',
    wf_names d = true -> (p', d') ∈ visit top d -> exists q, p' = top +:+ q.
Proof.
  induction d as [fs ds IH] using Dir_ind'. intros top p' d' Hwf Hin.
  rewrite wf_names_unfold in Hwf. apply andb_true_iff in Hwf as [_ Hwf].
  rewrite visit_unfold in Hin. apply elem_of_cons in Hin as [[= -> _] | Hin].
  - exists "". now rewrite append_nil_r.
  - apply list_elem_of_In, in_flat_map in Hin as [[n sub] [He Hin]].
    cbn [fst snd] in Hin.
    rewrite forallb_forall in Hwf. specialize (Hwf _ He). cbn [fst snd] in Hwf.
    apply andb_true_iff in Hwf as [Hn Hsub]. apply negb_true_iff in Hn.
    rewrite Forall_forall in IH.
    apply list_elem_of_In in He, Hin.
    destruct (IH _ He _ _ _ Hsub Hin) as [q ->].
    assert (Hrel : startswith n "/" = false).
    { destruct (startswith n "/") eqn:E; [|reflexivity].
      destruct n; simpl in Hn, E; [discriminate|]. now rewrite E in Hn. }
    destruct (join2_extends top n Hrel) as [q' Hq'].
    exists (q' +:+ q). cbn [join fold_left]. now rewrite Hq', append_assoc.
Qed.

(** ** The scenario *)

Lemma str_in_app_chars (sub q : string) :
  forall p,
    forallb (fun d => negb (endswith_char sub d)) (list_ascii_of_string q) = true ->
    str_in sub (p +:+ q) = str_in sub p.
Proof.
  induction q as [|c q IH]; intros p H.
  - now rewrite append_nil_r.
  - cbn [list_ascii_of_string forallb] in H. apply andb_true_iff in H as [Hc Hq].
    apply negb_true_iff in Hc.
    replace (p +:+ String c q) with ((p +:+ String c "") +:+ q)
      by (now rewrite append_assoc).
    now rewrite (IH _ Hq), str_in_snoc.
Qed.

Lemma skip_flag_lib path :
  skip_flag path = false -> skip_flag (join path ["lib"]) = false.
Proof.
  rewrite !skip_flag_false. intros H cf Hcf. specialize (H cf Hcf).
  cbn [join fold_left].
  destruct (join2_relative path "lib" eq_refl) as [-> | ->];
    rewrite str_in_app_chars; auto;
    unfold CACHE_FOLDERS in Hcf;
    repeat (apply elem_of_cons in Hcf as [-> | Hcf]; [reflexivity|]);
    now apply elem_of_nil in Hcf.
Qed.

Lemma skip_flag_pytest_cache path :
  skip_flag (join path [".pytest_cache"]) = true.
Proof.
  apply skip_flag_true. exists ".pytest_cache". split.
  - unfold CACHE_FOLDERS. do 3 apply list_elem_of_further. apply list_elem_of_here.
  - cbn [join fold_left].
    destruct (join2_relative path ".pytest_cache" eq_refl) as [-> | ->];
      now apply str_in_app_r.
Qed.

Lemma scenario_positions path ds :
  skip_flag path = false ->
  scenario_subdirs ≡ₚ ds ->
  positions path (mkDir ["README.md"] ds) = [path; join path ["lib"]].
Proof.
  intros Hroot Hperm. rewrite positions_filter.
  pose proof (skip_flag_lib path Hroot) as Hlib.
  pose proof (skip_flag_pytest_cache path) as Hcache.
  apply Permutation_length_2_inv in Hperm as [-> | ->];
    rewrite walk_unfold; unfold readme_dir;
    cbn [flat_map fst snd app]; rewrite !walk_unfold;
    cbn [flat_map fst snd app List.filter map];
    unfold qualifies; cbn [fst snd];
    rewrite Hroot, Hlib, Hcache; reflexivity.
Qed.

(** C1 (as the code has it): on the scenario tree, with the sub-directories
    listed in either order and a root path that names no cache folder,
    [load_project] returns exactly two modules, the root itself and
    [lib/], and none for [.pytest_cache/]. *)
Theorem scenario_two_modules path ds :
  skip_flag path = false ->
  scenario_subdirs ≡ₚ ds ->
  load_project (mkDir ["README.md"] ds) path
  = Ok [load_module path; load_module (join path ["lib"])].
Proof.
  intros Hroot Hperm. unfold load_project.
  assert (Hls : list_in "README.md" (listdir (mkDir ["README.md"] ds)) = true).
  { unfold listdir, list_in. cbn [files subdirs]. rewrite existsb_app.
    apply orb_true_iff. right. reflexivity. }
  rewrite Hls. cbn [negb].
  now rewrite modules_loop, (scenario_positions path ds Hroot Hperm).
Qed.

Lemma scenario_two_modules_witness :
  load_project scenario_tree "project"
  = Ok [load_module "project"; load_module "project/lib"].
Proof.
  exact (scenario_two_modules "project" scenario_subdirs eq_refl
           (Permutation_refl _)).
Defined.

(** C1 (as stated) fails: the scan of the scenario tree does not return a
    single module. *)
Lemma scenario_not_single_module :
  ~ exists m, load_project scenario_tree "project" = Ok [m].
Proof. intros [m H]. vm_compute in H. discriminate H. Qed.

(** ** Exclusion of cache folders *)

(** C8: no module is returned for a path in which a cache folder name
    occurs, whatever the directory contains; and when such a path belongs
    to a walked directory, no module is returned for that directory or for
    any directory below it. *)
Theorem cache_folders_never_reported tree path mods :
  load_project tree path = Ok mods ->
  (forall m cache_folder,
      m ∈ mods -> cache_folder ∈ CACHE_FOLDERS ->
      str_in cache_folder (Module_.name m) = false)
  /\
  (forall dirpath sub cache_folder below d',
      (dirpath, sub) ∈ visit path tree ->
      wf_names sub = true ->
      cache_folder ∈ CACHE_FOLDERS ->
      str_in cache_folder dirpath = true ->
      (below, d') ∈ visit dirpath sub ->
      forall m, m ∈ mods -> Module_.name m <> below).
Proof.
  intros Hload. apply load_project_ok in Hload as [_ ->].
  assert (Hclean : forall m, m ∈ map load_module (positions path tree) ->
                             skip_flag (Module_.name m) = false).
  { intros m Hm. apply list_elem_of_fmap in Hm as [p [-> Hp]].
    apply elem_of_positions in Hp as [dn [fs [_ Hq]]].
    unfold qualifies in Hq. cbn [fst snd] in Hq.
    apply andb_true_iff in Hq as [Hq _]. now apply negb_true_iff in Hq. }
  split.
  - intros m cf Hm Hcf. specialize (Hclean m Hm).
    rewrite skip_flag_false in Hclean. now apply Hclean.
  - intros dirpath sub cf below d' _ Hwf Hcf Hin Hbelow m Hm Heq.
    destruct (visit_extends sub dirpath below d' Hwf Hbelow) as [q ->].
    specialize (Hclean m Hm). rewrite Heq in Hclean.
    assert (skip_flag (dirpath +:+ q) = true); [|congruence].
    apply skip_flag_app, skip_flag_true. eauto.
Qed.

Lemma cache_folders_never_reported_witness :
  (forall m cache_folder,
      m ∈ [load_module "project"; load_module "project/lib"] ->
      cache_folder ∈ CACHE_FOLDERS ->
      str_in cache_folder (Module_.name m) = false)
  /\
  (forall dirpath sub cache_folder below d',
      (dirpath, sub) ∈ visit "project" scenario_tree ->
      wf_names sub = true ->
      cache_folder ∈ CACHE_FOLDERS ->
      str_in cache_folder dirpath = true ->
      (below, d') ∈ visit dirpath sub ->
      forall m, m ∈ [load_module "project"; load_module "project/lib"] ->
                Module_.name m <> below).
Proof.
  exact (cache_folders_never_reported scenario_tree "project" _ eq_refl).
Defined.

(** ** What the scanner builds *)

(** C9 (as the code has it): whenever the top directory holds [README.md]
    the scan succeeds, and it returns, in walk order, one module per
    qualifying directory; each module has the directory path as its name
    and as its language, no language specification, no project files and
    no dependencies.  The qualifying directories are exactly the walked
    ones whose path names no cache folder and whose files include
    [README.md]: none of them is dropped. *)
Theorem scanner_builds_plain_modules tree path :
  list_in "README.md" (listdir tree) = true ->
  load_project tree path
  = Ok (map (fun p => Module_.mk p p None [] []) (positions path tree))
  /\
  (forall p,
      p ∈ positions path tree <->
      exists dirnames fs,
        (p, dirnames, fs) ∈ walk path tree /\
        skip_flag p = false /\ list_in "README.md" fs = true).
Proof.
  intros Hls. split.
  - unfold load_project. rewrite Hls. cbn [negb]. now rewrite modules_loop.
  - intros p. rewrite elem_of_positions. unfold qualifies. cbn [fst snd].
    split; intros [dn [fs H]]; exists dn, fs.
    + destruct H as [Hin Hq]. apply andb_true_iff in Hq as [Hs Hr].
      apply negb_true_iff in Hs. auto.
    + destruct H as [Hin [Hs Hr]]. now rewrite Hs, Hr.
Qed.

Lemma scanner_builds_plain_modules_witness :
  load_project python_tree "project"
  = Ok (map (fun p => Module_.mk p p None [] []) (positions "project" python_tree))
  /\
  (forall p,
      p ∈ positions "project" python_tree <->
      exists dirnames fs,
        (p, dirnames, fs) ∈ walk "project" python_tree /\
        skip_flag p = false /\ list_in "README.md" fs = true).
Proof. exact (scanner_builds_plain_modules python_tree "project" eq_refl). Defined.

(** C9 (as stated) fails: a registered specification claims the directory
    and has a project loader, yet the module returned for the directory is
    not the one that loader builds. *)
Lemma scanner_ignores_registry :
  ~ scanner_uses_loader [python_specs] python_tree "project".
Proof.
  intros H.
  specialize (H [load_module "project"] "project" [] ["README.md"; "setup.py"]
                python_specs
                (fun fs => Module_.mk "package" "python" None fs [])
                eq_refl).
  assert (Hin : Module_.mk (Specs := LanguageSpecs.t) "package" "python" None
                  ["README.md"; "setup.py"] []
                ∈ [load_module "project"]).
  { apply H; try reflexivity. apply list_elem_of_here. }
  apply list_elem_of_singleton in Hin. discriminate Hin.
Qed.

End ScannerFacts.

(* ===================================================================== *)
(** * Document cells                                                       *)
(* ===================================================================== *)

Module DocumentCellFacts.
Import DocumentCell.

(** Unfolding of the monad on a concrete run. *)
Ltac run := unfold mbind, M_bind, mret, M_ret, raise, get_config.

(** Validation of a link cell without a [target] key: the second check
    raises, whatever the other attributes are. *)
Lemma post_init_link_without_target self w :
  type self ∈ [link_text; link_external] ->
  additional_content self !! "target" = None ->
  __post_init__ self w
  = (Raise (ValueError [ADict (additional_content self); AInt (id self);
                        AStr "Links must contain target information!"]), w).
Proof.
  intros Hty Hkey. unfold __post_init__, invalid, has_key. run.
  rewrite Hkey.
  assert (type self <> field).
  { intros E. rewrite E in Hty. vm_compute in Hty.
    repeat (apply elem_of_cons in Hty as [Hty | Hty]; [discriminate|]).
    now apply elem_of_nil in Hty. }
  rewrite (bool_decide_eq_false_2 (type self = field)) by assumption.
  now rewrite (bool_decide_eq_true_2 _ Hty).
Qed.

(** Validation of an external link whose [target] is a string. *)
Lemma post_init_external_link self target w :
  type self = link_external ->
  additional_content self !! "target" = Some (VStr target) ->
  __post_init__ self w
  = if negb (startswith target "https") && negb (force_install (APP_CONFIG w))
    then (Raise (ValueError [ADict (additional_content self); AInt (id self);
                             AStr "External links must contain https schema"]), w)
    else (Ok tt, w).
Proof.
  intros Hty Hkey.
  unfold __post_init__, invalid, has_key, target_startswith_https. run.
  rewrite Hty, Hkey. cbn [bool_decide decide_rel negb orb].
  rewrite (bool_decide_eq_false_2 (link_external = field)) by discriminate.
  rewrite (bool_decide_eq_true_2 (link_external ∈ [link_text; link_external]))
    by (apply list_elem_of_further, list_elem_of_here).
  rewrite (bool_decide_eq_true_2 (link_external = link_external)) by reflexivity.
  rewrite (bool_decide_eq_false_2 (link_external = code)) by discriminate.
  rewrite (bool_decide_eq_false_2 (link_external = image)) by discriminate.
  cbn [negb].
  destruct (negb (startswith target "https") && negb (force_install (APP_CONFIG w)));
    reflexivity.
Qed.

(** C7: constructing an external link whose [target] does not start with
    [https] raises [ValueError] when [force_install] is off, and yields
    the cell, with the attributes as given, when it is on. *)
Theorem external_link_requires_https raw attrs target id0 w :
  attrs !! "target" = Some (VStr target) ->
  startswith target "https" = false ->
  let id := default (_ID_COUNTER w + 1) id0 in
  (__init__ raw (Some attrs) id0 (Some link_external) w).1
  = if force_install (APP_CONFIG w)
    then Ok (mk raw attrs id link_external)
    else Raise (ValueError [ADict attrs; AInt id;
                            AStr "External links must contain https schema"]).
Proof.
  intros Hkey Hhttps id'. unfold __init__. run. cbn [default].
  destruct id0 as [n|]; cbn [default] in id'; subst id'; unfold _id_generator;
    (rewrite (post_init_external_link _ target) by (cbn; auto));
    cbn [APP_CONFIG]; rewrite Hhttps; cbn [negb andb];
    destruct (force_install (APP_CONFIG w)); reflexivity.
Qed.

Lemma external_link_requires_https_witness :
  (__init__ "site" (Some {[ "target" := VStr "http://example.org" ]}) None
            (Some link_external) AppResources.fresh_world).1
  = Raise (ValueError [ADict {[ "target" := VStr "http://example.org" ]}; AInt 1;
                       AStr "External links must contain https schema"]).
Proof.
  exact (external_link_requires_https "site"
           {[ "target" := VStr "http://example.org" ]} "http://example.org"
           None AppResources.fresh_world eq_refl eq_refl).
Defined.

(** C4 (what the code does): [create_text_link] stores the destination
    under the key [to], the validation asks for the key [target], and the
    construction raises for every text and every destination. *)
Theorem create_text_link_always_raises text to as_class as_text w :
  (create_text_link text to as_class as_text w).1
  = Raise (ValueError
      [ADict (<["to" := VStr to]> (<["as_class" := VBool as_class]>
                {[ "as_text" := VBool as_text ]}));
       AInt (_ID_COUNTER w + 1);
       AStr "Links must contain target information!"]).
Proof.
  unfold create_text_link, __init__. run. unfold _id_generator. cbn [default].
  rewrite post_init_link_without_target; [reflexivity | | reflexivity].
  apply list_elem_of_here.
Qed.

(** The third factory shares the defect. *)
Lemma create_external_link_always_raises text to f1 f2 f3 f4 f5 f6 f7 f8 f9 w :
  exists args,
    (create_external_link text to f1 f2 f3 f4 f5 f6 f7 f8 f9 w).1
    = Raise (ValueError args).
Proof.
  unfold create_external_link, __init__. run. unfold _id_generator. cbn [default].
  destruct (negb (ignore_compromised (APP_CONFIG w)));
    (rewrite post_init_link_without_target;
     [eexists; reflexivity | apply list_elem_of_further, list_elem_of_here | reflexivity]).
Qed.

(** The paragraph factory goes through the same constructor and passes. *)
Lemma create_paragraph_succeeds text centralized w :
  (create_paragraph text centralized w).1
  = Ok (mk text {[ "centralize" := VBool centralized ]} (_ID_COUNTER w + 1) paragraph).
Proof. reflexivity. Qed.

End DocumentCellFacts.

(* ===================================================================== *)
(** * The plug-in registry                                                 *)
(* ===================================================================== *)

Module AppResourcesFacts.
Import PyFacts AppResources.

Section Loader.

Variable install : string -> M unit.
Variable Confirm_ask : string -> M bool.

Ltac run := unfold mbind, M_bind, mret, M_ret, raise, get_config.

(** Printing changes neither the configuration, the catalog nor the
    files. *)
Lemma print_spec line w :
  print line w
  = (Ok tt, mkWorld (APP_CONFIG w) (_ID_COUNTER w) (_languages w)
                    (stdout w ++ [line]) (plugin_files w)).
Proof. reflexivity. Qed.

(** The [try] body on a manifest entry whose descriptor is on disk: the
    object is appended to the catalog. *)
Lemma load_plugin_present plugin object w :
  plugin_files w !! descriptor_path (APP_CONFIG w) plugin = Some object ->
  exists out,
    load_plugin plugin w
    = (Ok tt, mkWorld (APP_CONFIG w) (_ID_COUNTER w) (_languages w ++ [object])
                      out (plugin_files w)).
Proof.
  intros Hfile. unfold load_plugin, open_and_load, languages_append. run.
  destruct (verbose (APP_CONFIG w)); rewrite ?print_spec; cbn [APP_CONFIG plugin_files];
    rewrite Hfile; eexists; reflexivity.
Qed.

(** The [try] body on an entry whose descriptor is missing: [open] raises
    and the catalog is untouched. *)
Lemma load_plugin_missing plugin w :
  plugin_files w !! descriptor_path (APP_CONFIG w) plugin = None ->
  exists out,
    load_plugin plugin w
    = (Raise (FileNotFoundError (descriptor_path (APP_CONFIG w) plugin)),
       mkWorld (APP_CONFIG w) (_ID_COUNTER w) (_languages w) out (plugin_files w))
    /\ (verbose (APP_CONFIG w) = false -> out = stdout w).
Proof.
  intros Hfile. destruct w as [config n langs out files].
  cbn [APP_CONFIG _ID_COUNTER _languages stdout plugin_files] in *.
  unfold load_plugin, open_and_load. run.
  cbn [APP_CONFIG]. destruct (verbose config); rewrite ?print_spec;
    cbn [APP_CONFIG plugin_files]; rewrite Hfile; eexists;
    (split; [reflexivity | intros; try discriminate; reflexivity]).
Qed.

(** The handler raises at its first statement: nothing is reported, no
    reinstallation is started, no question is asked. *)
Lemma damaged_plugin_raises data plugin w :
  damaged_plugin install Confirm_ask data plugin w
  = (Raise (TypeError "unhashable type: 'dict'"), w).
Proof. reflexivity. Qed.

Lemma for_each_cons {A} (x : A) l body w :
  for_each (x :: l) body w
  = match body x w with
    | (Ok _, w') => for_each l body w'
    | (Raise e, w') => (Raise e, w')
    end.
Proof. reflexivity. Qed.

Lemma try_ok {A} (body handler : M A) w a w' :
  body w = (Ok a, w') -> try_except_FileNotFoundError body handler w = (Ok a, w').
Proof. unfold try_except_FileNotFoundError. now intros ->. Qed.

Lemma try_not_found {A} (body handler : M A) w filename w' :
  body w = (Raise (FileNotFoundError filename), w') ->
  try_except_FileNotFoundError body handler w = handler w'.
Proof. unfold try_except_FileNotFoundError. now intros ->. Qed.

(** The loop over a manifest whose descriptors are all on disk. *)
Lemma for_each_present data l :
  forall specs w,
    Forall2 (fun plugin object =>
               plugin_files w !! descriptor_path (APP_CONFIG w) plugin = Some object)
            l specs ->
    exists out,
      for_each l (fun plugin =>
        try_except_FileNotFoundError (load_plugin plugin)
                                     (damaged_plugin install Confirm_ask data plugin)) w
      = (Ok tt, mkWorld (APP_CONFIG w) (_ID_COUNTER w) (_languages w ++ specs)
                        out (plugin_files w)).
Proof.
  induction l as [|plugin l IH]; intros specs w Hall.
  - apply Forall2_nil_inv_l in Hall as ->. exists (stdout w).
    rewrite app_nil_r. now destruct w.
  - apply Forall2_cons_inv_l in Hall as [object [specs' [Hfile [Hall ->]]]].
    destruct (load_plugin_present plugin object w Hfile) as [out Hrun].
    rewrite for_each_cons, (try_ok _ _ _ _ _ Hrun).
    set (w1 := mkWorld _ _ _ _ _).
    destruct (IH specs' w1 Hall) as [out' Hrest].
    rewrite Hrest. exists out'. subst w1. cbn [APP_CONFIG _ID_COUNTER _languages plugin_files].
    now rewrite <- app_assoc.
Qed.

(** The loop over a manifest with a missing descriptor: the load stops
    there with the handler's [TypeError]; what was loaded before stays,
    the entries after it are never looked at. *)
Lemma for_each_missing data before plugin after :
  forall specs w,
    Forall2 (fun plugin object =>
               plugin_files w !! descriptor_path (APP_CONFIG w) plugin = Some object)
            before specs ->
    plugin_files w !! descriptor_path (APP_CONFIG w) plugin = None ->
    exists out,
      for_each (before ++ plugin :: after) (fun plugin =>
        try_except_FileNotFoundError (load_plugin plugin)
                                     (damaged_plugin install Confirm_ask data plugin)) w
      = (Raise (TypeError "unhashable type: 'dict'"),
         mkWorld (APP_CONFIG w) (_ID_COUNTER w) (_languages w ++ specs)
                 out (plugin_files w)).
Proof.
  induction before as [|p l IH]; intros specs w Hall Hmiss.
  - apply Forall2_nil_inv_l in Hall as ->.
    destruct (load_plugin_missing plugin w Hmiss) as [out [Hrun _]].
    cbn [app]. rewrite for_each_cons, (try_not_found _ _ _ _ _ Hrun).
    rewrite damaged_plugin_raises, app_nil_r. now exists out.
  - apply Forall2_cons_inv_l in Hall as [object [specs' [Hfile [Hall ->]]]].
    destruct (load_plugin_present p object w Hfile) as [out Hrun].
    cbn [app]. rewrite for_each_cons, (try_ok _ _ _ _ _ Hrun).
    set (w1 := mkWorld _ _ _ _ _).
    destruct (IH specs' w1 Hall Hmiss) as [out' Hrest].
    rewrite Hrest. exists out'. subst w1. cbn [APP_CONFIG _ID_COUNTER _languages plugin_files].
    now rewrite <- app_assoc.
Qed.

(** C3 (what the code does): on a manifest listing one plug-in whose
    descriptor file is absent, the load raises [TypeError] from inside the
    handler and leaves the process as it found it: nothing was printed, so
    no damaged plug-in was reported, and the exception leaves the
    constructor. *)
Theorem missing_descriptor_aborts_load :
  __init__ install Confirm_ask (mkResourceData [python_plugin]) fresh_world
  = (Raise (TypeError "unhashable type: 'dict'"), fresh_world).
Proof. reflexivity. Qed.

(** The same for any manifest: the first missing descriptor ends the load,
    and the entries listed after it are not loaded. *)
Lemma any_missing_descriptor_aborts_load before plugin after specs w :
  Forall2 (fun plugin object =>
             plugin_files w !! descriptor_path (APP_CONFIG w) plugin = Some object)
          before specs ->
  plugin_files w !! descriptor_path (APP_CONFIG w) plugin = None ->
  exists w',
    __init__ install Confirm_ask (mkResourceData (before ++ plugin :: after)) w
    = (Raise (TypeError "unhashable type: 'dict'"), w')
    /\ _languages w' = _languages w ++ specs.
Proof.
  intros Hall Hmiss. unfold __init__. cbn [plugins].
  destruct (length (before ++ plugin :: after) =? 0)%nat eqn:E.
  - apply Nat.eqb_eq in E. rewrite length_app in E. simpl in E. lia.
  - destruct (for_each_missing (mkResourceData (before ++ plugin :: after))
                before plugin after specs w Hall Hmiss) as [out ->].
    eexists. split; reflexivity.
Qed.

(** C6 (as the code has it): when every listed descriptor is on disk the
    load succeeds and appends the loaded objects to the catalog, one per
    manifest entry and in manifest order; entries already in the catalog
    stay where they are, whatever their language names. *)
Theorem load_appends_to_catalog data specs w :
  Forall2 (fun plugin object =>
             plugin_files w !! descriptor_path (APP_CONFIG w) plugin = Some object)
          (plugins data) specs ->
  exists w',
    __init__ install Confirm_ask data w = (Ok tt, w')
    /\ _languages w' = _languages w ++ specs.
Proof.
  intros Hall. unfold __init__.
  destruct (length (plugins data) =? 0)%nat eqn:E.
  - apply Nat.eqb_eq, nil_length_inv in E. rewrite E in Hall.
    apply Forall2_nil_inv_l in Hall as ->. exists w. now rewrite app_nil_r.
  - destruct (for_each_present data (plugins data) specs w Hall) as [out ->].
    eexists. split; reflexivity.
Qed.

End Loader.

Lemma load_appends_to_catalog_witness :
  exists w',
    __init__ install_nothing Confirm_no
             (mkResourceData [python_plugin; cpython_plugin]) installed_world
    = (Ok tt, w')
    /\ _languages w' = _languages installed_world ++ [python_descriptor; python_descriptor].
Proof.
  apply (load_appends_to_catalog install_nothing Confirm_no
           (mkResourceData [python_plugin; cpython_plugin])
           [python_descriptor; python_descriptor] installed_world).
  repeat constructor.
Defined.

(** C6 (as stated) fails: after loading two plug-ins that describe the same
    language the catalog holds two entries with that name. *)
Lemma catalog_keeps_duplicate_names :
  let run := __init__ install_nothing Confirm_no
               (mkResourceData [python_plugin; cpython_plugin]) installed_world in
  run.1 = Ok tt /\
  ~ NoDup (map LanguageSpecs.language_name (_languages run.2)).
Proof.
  split; [reflexivity|]. vm_compute. intros H.
  apply NoDup_cons in H as [H _]. apply H. apply list_elem_of_here.
Qed.

End AppResourcesFacts.

(* ===================================================================== *)
(** * Language membership                                                  *)
(* ===================================================================== *)

Module LanguageFacts.
Import PyFacts AppResources.

Lemma lower_char_idem c : lower_char (lower_char c) = lower_char c.
Proof. destruct c as [[] [] [] [] [] [] [] []]; reflexivity. Qed.

Lemma lower_idem s : lower (lower s) = lower s.
Proof.
  induction s as [|c s IH]; [reflexivity|].
  cbn [lower]. now rewrite lower_char_idem, IH.
Qed.

Lemma list_in_elem_of x l : list_in x l = true <-> x ∈ l.
Proof.
  unfold list_in. rewrite existsb_exists. split.
  - intros [y [Hy Heq]]. apply String.eqb_eq in Heq as ->. now apply list_elem_of_In.
  - intros Hx. exists x. split; [now apply list_elem_of_In | apply String.eqb_refl].
Qed.

(** The test answers whether the query, exactly as given, is the
    lower-cased name of a registered language. *)
Lemma is_language_exists_spec languages lang :
  is_language_exists languages lang = true <->
  exists spec, spec ∈ languages /\ lower (LanguageSpecs.language_name spec) = lang.
Proof.
  unfold is_language_exists, get_all_languages.
  rewrite list_in_elem_of, list_elem_of_fmap. split.
  - intros [spec [-> Hin]]. eauto.
  - intros [spec [Hin <-]]. eauto.
Qed.

Lemma bool_ext (a b : bool) : (a = true <-> b = true) -> a = b.
Proof.
  destruct a, b; intros [H1 H2]; try reflexivity.
  - symmetry. now apply H1.
  - now apply H2.
Qed.

(** C5 (as the code has it): the answer does not depend on the order of
    registration nor on the capitalization of the registered names, and it
    is a membership test of the query as given among the lower-cased
    names; a query that is not already in lower case is never found. *)
Theorem is_language_exists_lowercase_query languages languages' lang :
  languages ≡ₚ languages' ->
  is_language_exists languages lang = is_language_exists languages' lang
  /\ (is_language_exists languages lang = true <->
      exists spec, spec ∈ languages /\ lower (LanguageSpecs.language_name spec) = lang)
  /\ (lower lang <> lang -> is_language_exists languages lang = false).
Proof.
  intros Hperm. split; [|split].
  - apply bool_ext. rewrite !is_language_exists_spec.
    split; intros [spec [Hin Heq]]; exists spec; split; auto.
    + now rewrite <- Hperm.
    + now rewrite Hperm.
  - apply is_language_exists_spec.
  - intros Hne. destruct (is_language_exists languages lang) eqn:E; [|reflexivity].
    apply is_language_exists_spec in E as [spec [_ <-]].
    now rewrite lower_idem in Hne.
Qed.

Lemma is_language_exists_lowercase_query_witness :
  is_language_exists [python_descriptor; Scanner.python_specs] "python"
  = is_language_exists [Scanner.python_specs; python_descriptor] "python"
  /\ (is_language_exists [python_descriptor; Scanner.python_specs] "python" = true <->
      exists spec, spec ∈ [python_descriptor; Scanner.python_specs]
                   /\ lower (LanguageSpecs.language_name spec) = "python")
  /\ (lower "python" <> "python" ->
      is_language_exists [python_descriptor; Scanner.python_specs] "python" = false).
Proof.
  apply (is_language_exists_lowercase_query
           [python_descriptor; Scanner.python_specs]
           [Scanner.python_specs; python_descriptor] "python").
  apply Permutation_swap.
Defined.

(** C5 (as stated) fails: [Python] and [python] differ only in
    capitalization, and with the language [Python] registered the test
    finds the second and not the first. *)
Lemma is_language_exists_case_sensitive :
  lower "Python" = lower "python" /\
  is_language_exists [python_descriptor] "python" = true /\
  is_language_exists [python_descriptor] "Python" = false.
Proof. repeat split. Qed.

End LanguageFacts.

(* ===================================================================== *)
(** * Vendors and dependencies                                             *)
(* ===================================================================== *)

Module VendorFacts.

(** C10 (what the code does): [find] on a local vendor is the stand-in
    [overload] leaves behind; it raises [NotImplementedError] for every
    vendor, every name and every version, registered paths or not. *)
Theorem LocalVendor_find_raises (D : Type) self name version :
  exists msg,
    LocalVendor.find (D := D) (self, name, version) = Raise (NotImplementedError msg).
Proof. eexists. reflexivity. Qed.

(** Paths cannot be registered either. *)
Lemma LocalVendor_register_path_raises self paths :
  exists msg, LocalVendor.register_path (self, paths) = Raise (NotImplementedError msg).
Proof. eexists. reflexivity. Qed.

(** The undecorated body would have returned [None]. *)
Lemma LocalVendor_find_body_none (D : Type) self name version :
  LocalVendor.find_body (D := D) (self, name, version) = Ok None.
Proof. reflexivity. Qed.

(** C2 (what the code does): [to_json] puts the vendor object itself under
    the key [version]; the encoder rejects it, so the call raises for every
    dependency and no JSON text is produced. *)
Theorem to_json_always_raises encode_basestring self :
  Dependency.to_json encode_basestring self
  = Raise (match _name (Dependency.vendor self) with
           | None => AttributeError "_name"
           | Some _ => TypeError "Object of type Vendor is not JSON serializable"
           end).
Proof.
  unfold Dependency.to_json. destruct (_name (Dependency.vendor self)); reflexivity.
Qed.

Lemma to_json_requests_raises encode_basestring :
  Dependency.to_json encode_basestring Dependency.requests_dependency
  = Raise (TypeError "Object of type Vendor is not JSON serializable").
Proof. reflexivity. Qed.

(** With the [version] field under the key [version], the same encoder
    does produce the text: the failure comes from that one entry. *)
Lemma dumps_of_strings_succeeds encode_basestring (self : Dependency.t) vendor_name :
  is_ok (Dependency.dumps encode_basestring
           [ ("name", Dependency.JStr (Dependency.name self));
             ("version", Dependency.JStr (Dependency.version self));
             ("vendor", Dependency.JStr vendor_name);
             ("license", Dependency.JStr (Dependency.license self)) ]) = true.
Proof. reflexivity. Qed.

End VendorFacts.

(* ===================================================================== *)
(** * Document cells: the whole validation                                 *)
(* ===================================================================== *)

Module CellFacts.
Import DocumentCell.

Ltac run := unfold mbind, M_bind, mret, M_ret, raise, get_config.

(** The validation leaves the world alone and ends as the table says. *)
Lemma post_init_table self w :
  __post_init__ self w
  = (match rejection (APP_CONFIG w) self with
     | None => Ok tt
     | Some e => Raise e
     end, w).
Proof.
  destruct self as [raw attrs n ty].
  unfold __post_init__, rejection, invalid, target_startswith_https, has_key. run.
  cbn [type additional_content id].
  generalize (attrs !! "name") (attrs !! "label") (attrs !! "target")
             (attrs !! "lang") (attrs !! "src").
  intros [?|] [?|] [[t| |]|] [?|] [?|];
    destruct ty; try reflexivity;
    destruct (startswith t "https"), (force_install (APP_CONFIG w)); reflexivity.
Qed.

(** The constructor: the identifier is settled first, then the table
    decides. *)
Lemma init_table raw attrs id0 ty w :
  let n := default (_ID_COUNTER w + 1) id0 in
  let self := mk raw (default ∅ attrs) n (default paragraph ty) in
  let w' := match id0 with
            | Some _ => w
            | None => mkWorld (APP_CONFIG w) n (_languages w) (stdout w) (plugin_files w)
            end in
  __init__ raw attrs id0 ty w
  = (match rejection (APP_CONFIG w) self with
     | None => Ok self
     | Some e => Raise e
     end, w').
Proof.
  unfold __init__. run. destruct id0 as [n|];
    cbv beta iota zeta delta [default from_option Datatypes.id];
    unfold _id_generator; rewrite post_init_table; cbn [APP_CONFIG];
    match goal with |- context [rejection ?c ?s] => destruct (rejection c s) end;
    reflexivity.
Qed.

(** Rewriting a run of the constructor into its table form. *)
Ltac table :=
  rewrite !init_table;
  cbv beta iota zeta delta [default from_option Datatypes.id fst snd];
  unfold rejection; cbn [type additional_content id APP_CONFIG _ID_COUNTER].

(** X1: a [field] cell is built exactly when its attributes hold both
    [name] and [label]; otherwise the construction raises [ValueError]
    with the attributes, the identifier and the message. *)
Theorem field_cell_needs_name_and_label raw attrs id0 w :
  let n := default (_ID_COUNTER w + 1) id0 in
  (__init__ raw (Some attrs) id0 (Some field) w).1
  = if has_key attrs "name" && has_key attrs "label"
    then Ok (mk raw attrs n field)
    else Raise (ValueError [ADict attrs; AInt n;
                            AStr "Fields must contain name and text label"]).
Proof.
  intros n. subst n. table.
  destruct (has_key attrs "name" && has_key attrs "label"); reflexivity.
Qed.

(** X2: a [link_text], [code] or [image] cell is built exactly when its
    attributes hold the one key its type asks for ([target], [lang],
    [src]); the value stored under the key is not looked at. *)
Theorem single_key_cells raw attrs id0 ty key w :
  (ty, key) ∈ [(link_text, "target"); (code, "lang"); (image, "src")] ->
  is_ok (__init__ raw (Some attrs) id0 (Some ty) w).1 = has_key attrs key.
Proof.
  intros Hin.
  repeat (apply elem_of_cons in Hin as [[= -> ->] | Hin];
          [table; destruct (has_key attrs _); reflexivity|]).
  now apply elem_of_nil in Hin.
Qed.

Lemma single_key_cells_witness :
  is_ok (__init__ "print(1)" (Some {[ "lang" := VNone ]}) None (Some code)
                  AppResources.fresh_world).1
  = has_key {[ "lang" := VNone ]} "lang".
Proof.
  apply (single_key_cells "print(1)" {[ "lang" := VNone ]} None code "lang").
  apply list_elem_of_further, list_elem_of_here.
Defined.

(** X3: paragraphs, tables and headers are never rejected: with any
    attributes, or none, the construction returns the cell as given. *)
Theorem unconstrained_cells raw attrs id0 ty w :
  ty ∉ [field; link_text; link_external; code; image] ->
  (__init__ raw attrs id0 (Some ty) w).1
  = Ok (mk raw (default ∅ attrs) (default (_ID_COUNTER w + 1) id0) ty).
Proof.
  intros Hty.
  destruct ty; try (table; reflexivity); exfalso; apply Hty;
    repeat (first [apply list_elem_of_here | apply list_elem_of_further]).
Qed.

Lemma unconstrained_cells_witness :
  (__init__ "Title" None None (Some header_1) AppResources.fresh_world).1
  = Ok (mk "Title" ∅ 1 header_1).
Proof.
  apply (unconstrained_cells "Title" None None header_1 AppResources.fresh_world).
  intros H.
  repeat (apply elem_of_cons in H as [H | H]; [discriminate H|]).
  now apply elem_of_nil in H.
Defined.



(** X5: an external link whose [target] starts with [https] is built
    under every configuration. *)
Theorem external_link_https_accepted raw attrs id0 target w :
  attrs !! "target" = Some (VStr target) ->
  startswith target "https" = true ->
  (__init__ raw (Some attrs) id0 (Some link_external) w).1
  = Ok (mk raw attrs (default (_ID_COUNTER w + 1) id0) link_external).
Proof.
  intros Hkey Hs. table. now rewrite Hkey, Hs.
Qed.

Lemma external_link_https_accepted_witness :
  (__init__ "site" (Some {[ "target" := VStr "https://example.org" ]}) None
            (Some link_external) AppResources.fresh_world).1
  = Ok (mk "site" {[ "target" := VStr "https://example.org" ]} 1 link_external).
Proof.
  exact (external_link_https_accepted "site"
           {[ "target" := VStr "https://example.org" ]} None
           "https://example.org" AppResources.fresh_world eq_refl eq_refl).
Defined.

(** X6: a construction without an explicit identifier moves the counter
    up by exactly one, whether the cell is accepted or rejected, and
    touches nothing else; with an explicit identifier the globals are left
    as they were. *)
Theorem construction_and_the_counter raw attrs ty w :
  (__init__ raw attrs None ty w).2
  = mkWorld (APP_CONFIG w) (_ID_COUNTER w + 1) (_languages w) (stdout w)
            (plugin_files w)
  /\ forall n, (__init__ raw attrs (Some n) ty w).2 = w.
Proof.
  split; [|intros n]; now rewrite init_table.
Qed.

(** X7: identifiers are handed out in increasing order and never twice:
    the cell of a construction gets the counter plus one, the cell of the
    next construction the counter plus two, also when the first
    construction was rejected. *)
Theorem successive_identifiers raw1 attrs1 ty1 raw2 attrs2 ty2 w c1 c2 :
  let first := __init__ raw1 attrs1 None ty1 w in
  let second := __init__ raw2 attrs2 None ty2 first.2 in
  (first.1 = Ok c1 -> id c1 = _ID_COUNTER w + 1) /\
  (second.1 = Ok c2 -> id c2 = _ID_COUNTER w + 2).
Proof.
  intros first second. subst second first. rewrite !init_table.
  cbv beta iota zeta delta [default from_option Datatypes.id fst snd].
  cbn [_ID_COUNTER APP_CONFIG].
  split.
  - destruct (rejection _ _); intros [= <-]. reflexivity.
  - destruct (rejection _ _); intros [= <-]. cbn [id]. lia.
Qed.

Lemma successive_identifiers_witness :
  id (mk "a" ∅ 1 header_2) = 0 + 1 /\ id (mk "b" ∅ 2 paragraph) = 0 + 2.
Proof.
  destruct (successive_identifiers "a" None (Some header_2) "b" None None
              AppResources.fresh_world (mk "a" ∅ 1 header_2) (mk "b" ∅ 2 paragraph))
    as [H1 H2].
  split; [apply H1; reflexivity | apply H2; reflexivity].
Defined.

(** X8: every [ValueError] a construction raises names the offending
    cell: its arguments are the attributes as given, the identifier the
    cell was assigned, and one message. *)
Theorem value_error_names_the_cell raw attrs id0 ty w args :
  (__init__ raw attrs id0 ty w).1 = Raise (ValueError args) ->
  exists msg,
    args = [ADict (default ∅ attrs); AInt (default (_ID_COUNTER w + 1) id0); AStr msg].
Proof.
  rewrite init_table. cbn [fst]. unfold rejection.
  cbn [type additional_content id].
  destruct (default paragraph ty); try discriminate;
    try destruct (has_key _ _ && has_key _ _);
    try destruct (has_key _ _);
    try (destruct (_ !! "target") as [[t| |]|]; [destruct (_ || _)| | |]);
    intros H; try discriminate H; inversion H; eexists; reflexivity.
Qed.

Lemma value_error_names_the_cell_witness :
  exists msg,
    [ADict ∅; AInt 1; AStr "Images must contain link to source, at least network"]
    = [ADict (default ∅ None); AInt (default (_ID_COUNTER AppResources.fresh_world + 1) None);
       AStr msg].
Proof.
  exact (value_error_names_the_cell "logo" None None (Some image)
           AppResources.fresh_world _ eq_refl).
Defined.

(** X9: [create_paragraph] goes through the same constructor and is
    accepted for every text: the cell is a paragraph with the single
    attribute [centralize] and the next identifier. *)
Theorem create_paragraph_accepted text centralized w :
  create_paragraph text centralized w
  = (Ok (mk text {[ "centralize" := VBool centralized ]} (_ID_COUNTER w + 1) paragraph),
     mkWorld (APP_CONFIG w) (_ID_COUNTER w + 1) (_languages w) (stdout w)
             (plugin_files w)).
Proof. unfold create_paragraph. now rewrite init_table. Qed.

(** X29: [create_external_link] is rejected for every text, destination
    and choice of flags, under every configuration: the destination is
    stored under the key [to], so the check for the key [target] raises
    before the scheme is looked at, and [force_install] changes nothing. *)
Theorem create_external_link_rejected text to f1 f2 f3 f4 f5 f6 f7 f8 f9 w :
  exists attrs,
    create_external_link text to f1 f2 f3 f4 f5 f6 f7 f8 f9 w
    = (Raise (ValueError [ADict attrs; AInt (_ID_COUNTER w + 1);
                          AStr "Links must contain target information!"]),
       mkWorld (APP_CONFIG w) (_ID_COUNTER w + 1) (_languages w) (stdout w)
               (plugin_files w))
    /\ attrs !! "to" = Some (VStr to) /\ attrs !! "target" = None.
Proof.
  eexists. unfold create_external_link. run.
  destruct (negb (ignore_compromised (APP_CONFIG w)));
    rewrite init_table; (split; [reflexivity | split; reflexivity]).
Qed.

End CellFacts.

(* ===================================================================== *)
(** * The registry: the whole load and the queries                         *)
(* ===================================================================== *)

Module CatalogFacts.
Import PyFacts AppResources Catalog.

Section Loader.

Variable install : string -> M unit.
Variable Confirm_ask : string -> M bool.

Ltac run := unfold mbind, M_bind, mret, M_ret, raise, get_config.

(** One run of the [try] body, in full. *)
Lemma load_plugin_run plugin w :
  let found := plugin_files w !! descriptor_path (APP_CONFIG w) plugin in
  load_plugin plugin w
  = (match found with
     | Some _ => Ok tt
     | None => Raise (FileNotFoundError (descriptor_path (APP_CONFIG w) plugin))
     end,
     mkWorld (APP_CONFIG w) (_ID_COUNTER w)
             (_languages w ++ match found with Some object => [object] | None => [] end)
             (stdout w ++ if verbose (APP_CONFIG w) then verbose_lines plugin else [])
             (plugin_files w)).
Proof.
  destruct w as [config n langs out files]. cbn [APP_CONFIG _ID_COUNTER _languages stdout plugin_files].
  unfold load_plugin, open_and_load, languages_append, print, verbose_lines. run.
  cbn [APP_CONFIG _ID_COUNTER _languages stdout plugin_files].
  destruct (verbose config); cbn [APP_CONFIG _ID_COUNTER _languages stdout plugin_files];
    destruct (files !! descriptor_path config plugin);
    rewrite ?app_nil_r, <- ?app_assoc; reflexivity.
Qed.

(** The loop, in full: it ends as [load_trace] says. *)
Lemma for_each_run data l :
  forall w,
    for_each l (fun plugin =>
      try_except_FileNotFoundError (load_plugin plugin)
                                   (damaged_plugin install Confirm_ask data plugin)) w
    = let '(finished, loaded, seen) := load_trace (APP_CONFIG w) (plugin_files w) l in
      (if finished then Ok tt else Raise (TypeError "unhashable type: 'dict'"),
       mkWorld (APP_CONFIG w) (_ID_COUNTER w) (_languages w ++ loaded)
               (stdout w ++ if verbose (APP_CONFIG w)
                            then flat_map verbose_lines seen else [])
               (plugin_files w)).
Proof.
  induction l as [|plugin l IH]; intros w.
  - destruct w as [config n langs out files].
    cbn [for_each load_trace flat_map APP_CONFIG _ID_COUNTER _languages stdout plugin_files].
    unfold mret, M_ret. destruct (verbose config); now rewrite !app_nil_r.
  - rewrite AppResourcesFacts.for_each_cons. cbn [load_trace].
    pose proof (load_plugin_run plugin w) as Hrun. cbv zeta in Hrun.
    destruct (plugin_files w !! descriptor_path (APP_CONFIG w) plugin) as [object|] eqn:E.
    + rewrite (AppResourcesFacts.try_ok _ _ _ _ _ Hrun), IH.
      cbn [APP_CONFIG _ID_COUNTER _languages stdout plugin_files].
      destruct (load_trace (APP_CONFIG w) (plugin_files w) l) as [[finished loaded] seen].
      cbn [flat_map]. destruct (verbose (APP_CONFIG w));
        rewrite <- ?app_assoc, ?app_nil_r; reflexivity.
    + rewrite (AppResourcesFacts.try_not_found _ _ _ _ _ Hrun).
      rewrite AppResourcesFacts.damaged_plugin_raises.
      cbn [flat_map]. now rewrite !app_nil_r.
Qed.

(** The constructor, in full. *)
Lemma init_run data w :
  AppResources.__init__ install Confirm_ask data w
  = let '(finished, loaded, seen) :=
        load_trace (APP_CONFIG w) (plugin_files w) (plugins data) in
    (if finished then Ok tt else Raise (TypeError "unhashable type: 'dict'"),
     mkWorld (APP_CONFIG w) (_ID_COUNTER w) (_languages w ++ loaded)
             (stdout w ++ if verbose (APP_CONFIG w)
                          then flat_map verbose_lines seen else [])
             (plugin_files w)).
Proof.
  unfold AppResources.__init__.
  destruct (length (plugins data) =? 0)%nat eqn:E.
  - apply Nat.eqb_eq, nil_length_inv in E. rewrite E.
    destruct w as [config n langs out files].
    cbn [load_trace flat_map APP_CONFIG _ID_COUNTER _languages stdout plugin_files].
    unfold mret, M_ret. destruct (verbose config); now rewrite !app_nil_r.
  - apply for_each_run.
Qed.

End Loader.


Lemma load_trace_seen_prefix config files l :
  exists rest, l = (load_trace config files l).2 ++ rest.
Proof.
  induction l as [|p l [rest IH]]; cbn [load_trace].
  - now exists [].
  - destruct (files !! descriptor_path config p).
    + destruct (load_trace config files l) as [[finished loaded] seen].
      cbn [snd] in *. exists rest. cbn [app]. now f_equal.
    + now exists l.
Qed.

Lemma load_trace_all_present config files l :
  (forall plugin, plugin ∈ l -> is_Some (files !! descriptor_path config plugin)) ->
  (load_trace config files l).2 = l.
Proof.
  induction l as [|p l IH]; intros H; cbn [load_trace]; [reflexivity|].
  destruct (H p (list_elem_of_here _ _)) as [object ->].
  specialize (IH (fun q Hq => H q (list_elem_of_further _ _ _ Hq))).
  destruct (load_trace config files l) as [[finished loaded] seen].
  cbn [snd] in *. now rewrite IH.
Qed.

Lemma load_trace_present config files l specs :
  Forall2 (fun plugin object => files !! descriptor_path config plugin = Some object)
          l specs ->
  load_trace config files l = (true, specs, l).
Proof.
  induction 1 as [|p object l specs Hp _ IH]; cbn [load_trace]; [reflexivity|].
  now rewrite Hp, IH.
Qed.

(** X10: the [install] command and the confirmation prompt are never
    called by the load: whatever they would do, the outcome and the
    resulting state are the same. *)
Theorem load_never_calls_collaborators install Confirm_ask install' Confirm_ask' data w :
  AppResources.__init__ install Confirm_ask data w
  = AppResources.__init__ install' Confirm_ask' data w.
Proof. now rewrite !init_run. Qed.

(** X11: a load, finished or aborted, leaves the configuration, the
    identifier counter and the descriptor files as they were; the catalog
    and the output only grow at the end. *)
Theorem load_only_appends install Confirm_ask data w :
  let w' := (AppResources.__init__ install Confirm_ask data w).2 in
  APP_CONFIG w' = APP_CONFIG w /\
  _ID_COUNTER w' = _ID_COUNTER w /\
  plugin_files w' = plugin_files w /\
  (exists loaded, _languages w' = _languages w ++ loaded) /\
  (exists printed, stdout w' = stdout w ++ printed).
Proof.
  intros w'. subst w'. rewrite init_run.
  destruct (load_trace _ _ _) as [[finished loaded] seen]. cbn [snd].
  cbn [APP_CONFIG _ID_COUNTER _languages stdout plugin_files]. eauto 10.
Qed.


(** X13: with [verbose] off the load prints nothing, also when it is
    aborted on a missing descriptor. *)
Theorem quiet_load_prints_nothing install Confirm_ask data w :
  verbose (APP_CONFIG w) = false ->
  stdout (AppResources.__init__ install Confirm_ask data w).2 = stdout w.
Proof.
  intros Hq. rewrite init_run.
  destruct (load_trace _ _ _) as [[finished loaded] seen]. cbn [snd stdout].
  now rewrite Hq, app_nil_r.
Qed.

Lemma quiet_load_prints_nothing_witness :
  stdout (AppResources.__init__ install_nothing Confirm_no
            (mkResourceData [python_plugin]) fresh_world).2
  = stdout fresh_world.
Proof.
  exact (quiet_load_prints_nothing install_nothing Confirm_no
           (mkResourceData [python_plugin]) fresh_world eq_refl).
Defined.

Lemma length_verbose_lines l :
  length (flat_map verbose_lines l) = (4 * length l)%nat.
Proof.
  induction l as [|p l IH]; [reflexivity|].
  cbn [flat_map]. rewrite length_app, IH. cbn [verbose_lines length]. lia.
Qed.

(** X14: with [verbose] on, a load whose descriptors are all on disk
    prints four lines per manifest entry, in manifest order: name,
    version, vendor and timestamp. *)
Theorem verbose_load_prints_four_lines install Confirm_ask data w :
  verbose (APP_CONFIG w) = true ->
  (forall plugin, plugin ∈ plugins data ->
     is_Some (plugin_files w !! descriptor_path (APP_CONFIG w) plugin)) ->
  let w' := (AppResources.__init__ install Confirm_ask data w).2 in
  stdout w' = stdout w ++ flat_map verbose_lines (plugins data)
  /\ length (stdout w') = (length (stdout w) + 4 * length (plugins data))%nat.
Proof.
  intros Hv Hall w'. subst w'. rewrite init_run.
  pose proof (load_trace_all_present _ _ _ Hall) as Hseen.
  destruct (load_trace _ _ _) as [[finished loaded] seen]. cbn [snd] in *.
  subst seen. cbn [stdout]. rewrite Hv. split; [reflexivity|].
  now rewrite length_app, length_verbose_lines.
Qed.

Lemma verbose_load_prints_four_lines_witness :
  let w := mkWorld (mkAppConfig "/home/user/.librarian" false false false true)
                   0 [] [] (plugin_files installed_world) in
  let w' := (AppResources.__init__ install_nothing Confirm_no
               (mkResourceData [python_plugin; cpython_plugin]) w).2 in
  stdout w' = stdout w ++ flat_map verbose_lines [python_plugin; cpython_plugin]
  /\ length (stdout w') = (length (stdout w) + 4 * 2)%nat.
Proof.
  apply (verbose_load_prints_four_lines install_nothing Confirm_no
           (mkResourceData [python_plugin; cpython_plugin])
           (mkWorld (mkAppConfig "/home/user/.librarian" false false false true)
                    0 [] [] (plugin_files installed_world)) eq_refl).
  intros plugin Hin. cbn [plugins] in Hin.
  repeat (apply elem_of_cons in Hin as [-> | Hin]; [eexists; reflexivity|]).
  now apply elem_of_nil in Hin.
Defined.

(** X15: a load is not rolled back.  When the descriptors of the first
    entries are on disk and the next one is missing, the load ends with
    [TypeError], the objects of those first entries stay in the catalog
    and the entries after the missing one are not loaded. *)
Theorem aborted_load_keeps_earlier_plugins install Confirm_ask before plugin after specs w :
  Forall2 (fun plugin object =>
             plugin_files w !! descriptor_path (APP_CONFIG w) plugin = Some object)
          before specs ->
  plugin_files w !! descriptor_path (APP_CONFIG w) plugin = None ->
  let run := AppResources.__init__ install Confirm_ask
               (mkResourceData (before ++ plugin :: after)) w in
  run.1 = Raise (TypeError "unhashable type: 'dict'")
  /\ _languages run.2 = _languages w ++ specs.
Proof.
  intros Hall Hmiss run. subst run. rewrite init_run. cbn [plugins].
  assert (load_trace (APP_CONFIG w) (plugin_files w) (before ++ plugin :: after)
          = (false, specs, before ++ [plugin])) as ->.
  { clear -Hall Hmiss. induction Hall as [|p object l specs' Hp _ IH].
    - cbn [app load_trace]. now rewrite Hmiss.
    - cbn [app load_trace]. now rewrite Hp, IH. }
  split; reflexivity.
Qed.

Lemma aborted_load_keeps_earlier_plugins_witness :
  let w := mkWorld quiet_config 0 [] []
             {[ "/home/user/.librarian/plugins/python.obj" := python_descriptor ]} in
  let run := AppResources.__init__ install_nothing Confirm_no
               (mkResourceData ([python_plugin] ++ cpython_plugin :: [python_plugin])) w in
  run.1 = Raise (TypeError "unhashable type: 'dict'")
  /\ _languages run.2 = _languages w ++ [python_descriptor].
Proof.
  apply (aborted_load_keeps_earlier_plugins install_nothing Confirm_no
           [python_plugin] cpython_plugin [python_plugin] [python_descriptor]
           (mkWorld quiet_config 0 [] []
              {[ "/home/user/.librarian/plugins/python.obj" := python_descriptor ]})).
  - repeat constructor.
  - reflexivity.
Defined.

(** ** The queries *)

Lemma extend_loop {A} (f : A -> list string) l acc :
  fold_left (fun result x => result ++ f x) l acc = acc ++ concat (map f l).
Proof.
  revert acc; induction l as [|x l IH]; intros acc; cbn [fold_left map concat].
  - now rewrite app_nil_r.
  - now rewrite IH, app_assoc.
Qed.

Lemma elem_of_concat_map {A} (f : A -> list string) l y :
  y ∈ concat (map f l) <-> exists x, x ∈ l /\ y ∈ f x.
Proof.
  induction l as [|x l IH]; cbn [map concat].
  - split; [intros H; now apply elem_of_nil in H | intros [x [H _]]; now apply elem_of_nil in H].
  - rewrite elem_of_app, IH. split.
    + intros [H | [x' [Hin H]]]; [exists x | exists x']; split; auto;
        [apply list_elem_of_here | now apply list_elem_of_further].
    + intros [x' [Hin H]]. apply elem_of_cons in Hin as [-> | Hin]; eauto.
Qed.

(** X16: [get_all_file_extensions] is the concatenation of the extension
    lists in registration order, duplicates kept: an extension is returned
    exactly when some registered language declares it, and the result for
    a catalog extended at the end is extended at the end. *)
Theorem get_all_file_extensions_concat languages more :
  get_all_file_extensions languages
  = concat (map LanguageSpecs.file_extensions languages)
  /\ (forall ext, ext ∈ get_all_file_extensions languages <->
        exists lang, lang ∈ languages /\ ext ∈ LanguageSpecs.file_extensions lang)
  /\ get_all_file_extensions (languages ++ more)
     = get_all_file_extensions languages ++ get_all_file_extensions more.
Proof.
  unfold get_all_file_extensions. rewrite !extend_loop. cbn [app].
  split; [reflexivity|]. split.
  - intros ext. apply elem_of_concat_map.
  - now rewrite map_app, concat_app.
Qed.

(** X17: [get_all_project_files] is the concatenation of the marker-file
    lists in registration order, duplicates kept, with the same membership
    and extension properties. *)
Theorem get_all_project_files_concat languages more :
  get_all_project_files languages
  = concat (map LanguageSpecs.project_files languages)
  /\ (forall file, file ∈ get_all_project_files languages <->
        exists lang, lang ∈ languages /\ file ∈ LanguageSpecs.project_files lang)
  /\ get_all_project_files (languages ++ more)
     = get_all_project_files languages ++ get_all_project_files more.
Proof.
  unfold get_all_project_files. rewrite !extend_loop. cbn [app].
  split; [reflexivity|]. split.
  - intros file. apply elem_of_concat_map.
  - now rewrite map_app, concat_app.
Qed.

(** X18: [get_all_languages] returns one name per catalog entry, and
    every returned name is in lower case (lowering it again changes
    nothing). *)
Theorem get_all_languages_lowercase languages :
  length (get_all_languages languages) = length languages
  /\ Forall (fun name => lower name = name) (get_all_languages languages).
Proof.
  unfold get_all_languages. split; [apply length_map|].
  apply Forall_forall. intros name Hin.
  apply list_elem_of_fmap in Hin as [lang [-> _]]. apply LanguageFacts.lower_idem.
Qed.

(** X19: after a load whose descriptors are all on disk, the lower-cased
    name of every loaded language is known to [is_language_exists], and
    every name known before the load is still known. *)
Theorem loaded_languages_are_known install Confirm_ask data specs w :
  Forall2 (fun plugin object =>
             plugin_files w !! descriptor_path (APP_CONFIG w) plugin = Some object)
          (plugins data) specs ->
  let w' := (AppResources.__init__ install Confirm_ask data w).2 in
  (forall spec, spec ∈ specs ->
     is_language_exists (_languages w') (lower (LanguageSpecs.language_name spec)) = true)
  /\ (forall lang, is_language_exists (_languages w) lang = true ->
                   is_language_exists (_languages w') lang = true).
Proof.
  intros Hall w'. subst w'. rewrite init_run, (load_trace_present _ _ _ _ Hall).
  cbn [snd _languages]. split.
  - intros spec Hin. apply LanguageFacts.is_language_exists_spec.
    exists spec. split; [|reflexivity]. apply elem_of_app. now right.
  - intros lang H. apply LanguageFacts.is_language_exists_spec in H as [spec [Hin Heq]].
    apply LanguageFacts.is_language_exists_spec. exists spec. split; [|exact Heq].
    apply elem_of_app. now left.
Qed.

Lemma loaded_languages_are_known_witness :
  let w' := (AppResources.__init__ install_nothing Confirm_no
               (mkResourceData [python_plugin; cpython_plugin]) installed_world).2 in
  (forall spec, spec ∈ [python_descriptor; python_descriptor] ->
     is_language_exists (_languages w') (lower (LanguageSpecs.language_name spec)) = true)
  /\ (forall lang, is_language_exists (_languages installed_world) lang = true ->
                   is_language_exists (_languages w') lang = true).
Proof.
  apply (loaded_languages_are_known install_nothing Confirm_no
           (mkResourceData [python_plugin; cpython_plugin])
           [python_descriptor; python_descriptor] installed_world).
  repeat constructor.
Defined.

End CatalogFacts.

(* ===================================================================== *)
(** * Configuration, loaders and search paths                              *)
(* ===================================================================== *)

Module RuntimeFacts.
Import PyFacts.

(** X20: constructing the configuration never fails, returns the five
    fields as given and leaves the globals alone apart from the output:
    nothing is printed unless [ignore_compromised] is set; then the
    warning comes first, followed by the four recommendation lines only
    when [verbose] is set too. *)
Theorem config_announces_insecure_mode home force insecure yes verb w :
  Config.__init__ home force insecure yes verb w
  = (Ok (mkAppConfig home force insecure yes verb),
     mkWorld (APP_CONFIG w) (_ID_COUNTER w) (_languages w)
       (stdout w ++
        if insecure
        then "[yellow bold blink][!] Enabled unsecure methods!" ::
             (if verb
              then [ "[dim][VERBOSE][bold yellow] Recommendation:";
                     "[dim][VERBOSE]	We not recommend to turn off all security checks during runtime!";
                     "[dim][VERBOSE]	Run with this mode only if You really checked all dependencies and";
                     "[dim][VERBOSE]	really sure that all is ok!" ]
              else [])
        else [])
       (plugin_files w)).
Proof.
  destruct w as [config n langs out files].
  destruct insecure, verb; cbv -[app];
    rewrite <- ?app_assoc, ?app_nil_r; reflexivity.
Qed.

(** X21: [parse_project] returns a module exactly when the predicate of
    the specification accepts the files and a loader is set, and the
    module is then the loader's; files the predicate rejects give [None]
    without the loader being looked at; a specification whose
    [is_language] was left at its default raises [TypeError] on every
    call. *)
Theorem parse_project_outcomes self files m :
  (parse_project self files = Ok (Some m) <->
   exists accepts loader,
     LanguageSpecs.is_language self = Some accepts /\
     LanguageSpecs.project_loader self = Some loader /\
     accepts files = true /\ m = loader files)
  /\ (forall accepts,
        LanguageSpecs.is_language self = Some accepts -> accepts files = false ->
        parse_project self files = Ok None)
  /\ (LanguageSpecs.is_language self = None ->
      parse_project self files = Raise (TypeError "'bool' object is not callable")).
Proof.
  unfold parse_project. repeat split.
  - destruct (LanguageSpecs.is_language self) as [accepts|]; [|discriminate].
    destruct (accepts files) eqn:E; cbn [negb]; [|discriminate].
    destruct (LanguageSpecs.project_loader self) as [loader|]; [|discriminate].
    intros [= <-]. exists accepts, loader. auto.
  - intros [accepts [loader [-> [-> [Hyes ->]]]]]. now rewrite Hyes.
  - intros accepts -> Hno. now rewrite Hno.
  - now intros ->.
Qed.

(** The position [list.index] returns is the first one holding the
    element. *)
Lemma index_first f l :
  forall i,
    l !! i = Some f ->
    (forall j, (j < i)%nat -> l !! j <> Some f) ->
    Specs.index f l = Some i.
Proof.
  induction l as [|x l IH]; intros i Hi Hfirst; [discriminate|].
  cbn [Specs.index]. destruct i as [|i].
  - injection Hi as ->. now rewrite String.eqb_refl.
  - destruct (String.eqb_spec x f) as [-> | Hne].
    + exfalso. apply (Hfirst 0%nat); [lia | reflexivity].
    + cbn in Hi. rewrite (IH i Hi); [reflexivity|].
      intros j Hj. apply (Hfirst (S j)). lia.
Qed.

(** X22: [get_loader] pairs the marker files with the loaders by
    position.  For a file whose first occurrence in [project_files] is at
    position [i] it returns the loader at position [i], and raises
    [IndexError] when the list of loaders is too short to have one. *)
Theorem get_loader_by_position self loaders file i :
  LanguageSpecs.project_files self !! i = Some file ->
  (forall j, (j < i)%nat -> LanguageSpecs.project_files self !! j <> Some file) ->
  Specs.get_loader self (Some loaders) file
  = match loaders !! i with
    | Some loader => Specs.Returns (Some loader)
    | None => Specs.RaisesIndexError
    end.
Proof.
  intros Hi Hfirst. unfold Specs.get_loader.
  assert (list_in file (LanguageSpecs.project_files self) = true) as ->.
  { apply LanguageFacts.list_in_elem_of. eapply list_elem_of_lookup_2. exact Hi. }
  cbn [negb]. now rewrite (index_first _ _ _ Hi Hfirst).
Qed.

Lemma get_loader_by_position_witness :
  Specs.get_loader Scanner.python_specs
    (Some [fun path => Scanner.load_module path]) "setup.py"
  = Specs.Returns (Some (fun path => Scanner.load_module path)).
Proof.
  apply (get_loader_by_position Scanner.python_specs
           [fun path => Scanner.load_module path] "setup.py" 0 eq_refl).
  intros j Hj. lia.
Defined.

(** X23: a file that is not among the marker files has no loader:
    [get_loader] returns [None], whatever the list of loaders is, even
    when it was left at its default. *)
Theorem get_loader_unknown_file self loaders file :
  file ∉ LanguageSpecs.project_files self ->
  Specs.get_loader self loaders file = Specs.Returns None.
Proof.
  intros Hnot. unfold Specs.get_loader.
  destruct (list_in file (LanguageSpecs.project_files self)) eqn:E; [|reflexivity].
  apply LanguageFacts.list_in_elem_of in E. contradiction.
Qed.

Lemma get_loader_unknown_file_witness :
  Specs.get_loader Scanner.python_specs None "Cargo.toml" = Specs.Returns None.
Proof.
  apply (get_loader_unknown_file Scanner.python_specs None "Cargo.toml").
  intros H. repeat (apply elem_of_cons in H as [H | H]; [discriminate H|]).
  now apply elem_of_nil in H.
Defined.

(** X24: no search path can be registered on a local vendor:
    [register_path] is the stand-in [overload] leaves behind and raises
    [NotImplementedError] for every vendor and every argument. *)
Theorem register_path_always_raises self paths :
  exists msg,
    LocalVendor.register_path (self, paths) = Raise (NotImplementedError msg).
Proof. eexists. reflexivity. Qed.

End RuntimeFacts.

(* ===================================================================== *)
(** * The project scanner: errors, order and structure                     *)
(* ===================================================================== *)

Module ScanFacts.
Import PyFacts Scanner ScannerFacts.

(** X25: [load_project] raises [ValueError] with the path and its message
    exactly when the top directory has no entry named [README.md], be it
    a file or a sub-directory; in every other case it returns a list. *)
Theorem load_project_needs_top_readme tree path :
  (is_ok (load_project tree path) = true <->
   "README.md" ∈ files tree \/ "README.md" ∈ map fst (subdirs tree))
  /\ (is_ok (load_project tree path) = false ->
      load_project tree path
      = Raise (ValueError [AStr path; AStr "Path no containing README.md"])).
Proof.
  unfold load_project.
  destruct (list_in "README.md" (listdir tree)) eqn:E; cbn [negb is_ok].
  - split; [|discriminate]. split; [intros _|reflexivity].
    apply LanguageFacts.list_in_elem_of in E. unfold listdir in E.
    apply elem_of_app in E. tauto.
  - split; [|reflexivity]. split; [discriminate|]. intros H.
    assert (list_in "README.md" (listdir tree) = true); [|congruence].
    apply LanguageFacts.list_in_elem_of. unfold listdir. apply elem_of_app. tauto.
Qed.

(** The recorded positions of a tree: the top directory, if it
    qualifies, then the positions of each sub-directory in turn. *)
Lemma positions_unfold path fs ds :
  positions path (mkDir fs ds)
  = (if qualifies (path, map fst ds, fs) then [path] else [])
    ++ flat_map (fun e => positions (join path [e.1]) e.2) ds.
Proof.
  rewrite positions_filter, walk_unfold. cbn [List.filter].
  assert (Hsub : map (fun e : string * list string * list string => e.1.1)
                   (List.filter qualifies
                      (flat_map (fun e => walk (join path [e.1]) e.2) ds))
                 = flat_map (fun e => positions (join path [e.1]) e.2) ds).
  { induction ds as [|e ds IH]; [reflexivity|].
    cbn [flat_map]. rewrite List.filter_app, map_app, IH.
    now rewrite positions_filter. }
  destruct (qualifies (path, map fst ds, fs)); cbn [map app]; now rewrite Hsub.
Qed.



(** The positions of a walked directory are a segment of the positions of
    the tree. *)
Lemma positions_segment tree :
  forall path p sub,
    (p, sub) ∈ visit path tree ->
    exists before after,
      positions path tree = before ++ positions p sub ++ after.
Proof.
  induction tree as [fs ds IH] using Dir_ind'. intros path p sub Hin.
  rewrite visit_unfold in Hin. apply elem_of_cons in Hin as [[= -> ->] | Hin].
  - exists [], []. now rewrite app_nil_r.
  - apply list_elem_of_In, in_flat_map in Hin as [e [He Hin]].
    rewrite Forall_forall in IH.
    apply list_elem_of_In in He, Hin.
    destruct (IH e He _ _ _ Hin) as [before [after Hseg]].
    apply list_elem_of_In, in_split in He as [l1 [l2 ->]].
    rewrite positions_unfold, flat_map_app. cbn [flat_map]. rewrite Hseg.
    set (root := if qualifies (path, map fst (l1 ++ e :: l2), fs) then [path] else []).
    set (f := fun e : string * Dir => positions (join path [e.1]) e.2).
    exists (root ++ flat_map f l1 ++ before), (after ++ flat_map f l2).
    now rewrite <- !app_assoc.
Qed.

(** X27: scanning a walked sub-directory on its own, under the path the
    walk gives it, returns a contiguous part of what scanning the whole
    tree returns, in the same order. *)
Theorem scan_of_subdirectory_is_a_segment tree path p sub mods submods :
  (p, sub) ∈ visit path tree ->
  load_project tree path = Ok mods ->
  load_project sub p = Ok submods ->
  exists before after, mods = before ++ submods ++ after.
Proof.
  intros Hin Hload Hsub.
  apply load_project_ok in Hload as [_ ->]. apply load_project_ok in Hsub as [_ ->].
  destruct (positions_segment tree path p sub Hin) as [before [after ->]].
  exists (map load_module before), (map load_module after).
  now rewrite !map_app.
Qed.

Lemma scan_of_subdirectory_is_a_segment_witness :
  exists before after,
    [load_module "project"; load_module "project/lib"]
    = before ++ [load_module "project/lib"] ++ after.
Proof.
  apply (scan_of_subdirectory_is_a_segment scenario_tree "project"
           "project/lib" readme_dir _ _); [|reflexivity|reflexivity].
  vm_compute. apply list_elem_of_further, list_elem_of_here.
Defined.

(** ** No directory is reported twice *)

Lemma append_not_nil a n : n <> "" -> a +:+ n <> "".
Proof. destruct a, n; cbn; congruence. Qed.

Lemma endswith_char_app a n c :
  n <> "" -> endswith_char (a +:+ n) c = endswith_char n c.
Proof.
  intros Hn. induction a as [|x a IH]; [reflexivity|].
  change (String x a +:+ n) with (String x (a +:+ n)). cbn [endswith_char].
  pose proof (append_not_nil a n Hn). destruct (a +:+ n); [congruence | exact IH].
Qed.

Lemma no_slash_cons a n :
  str_in "/" (String a n) = false -> a <> "/"%char /\ str_in "/" n = false.
Proof.
  cbn [str_in startswith]. intros H. apply orb_false_iff in H as [Ha Hn].
  rewrite startswith_nil, andb_true_r in Ha. split; [|exact Hn].
  intros ->. discriminate Ha.
Qed.

Lemma no_slash_relative n : str_in "/" n = false -> startswith n "/" = false.
Proof.
  destruct n as [|a n]; [reflexivity|]. intros H.
  apply no_slash_cons in H as [Ha _]. cbn [startswith].
  rewrite startswith_nil, andb_true_r.
  destruct (Ascii.eqb_spec "/"%char a); [congruence | reflexivity].
Qed.

Lemma no_slash_at_end n : str_in "/" n = false -> endswith_char n "/" = false.
Proof.
  induction n as [|a n IH]; [reflexivity|]. intros H.
  apply no_slash_cons in H as [Ha Hn]. cbn [endswith_char].
  destruct n; [|now apply IH].
  destruct (Ascii.eqb_spec a "/"%char); [congruence | reflexivity].
Qed.

(** The path of a child is the parent's path, a separator that depends
    on the parent's path only, and the child's name. *)
Lemma join2_child top n :
  str_in "/" n = false ->
  join2 top n
  = top +:+ (if (String.eqb top "" || endswith_char top "/"%char)%bool
             then "" else "/") +:+ n.
Proof.
  intros Hn. unfold join2. rewrite (no_slash_relative n Hn).
  now destruct (_ || _)%bool.
Qed.

Lemma join2_below c m :
  c <> "" -> endswith_char c "/" = false -> str_in "/" m = false ->
  join2 c m = c +:+ "/" +:+ m.
Proof.
  intros Hc Hend Hm. rewrite (join2_child c m Hm), Hend.
  destruct (String.eqb_spec c ""); [contradiction | reflexivity].
Qed.

Lemma child_path_proper top n :
  n <> "" -> str_in "/" n = false ->
  join2 top n <> "" /\ endswith_char (join2 top n) "/" = false.
Proof.
  intros Hn Hs. rewrite (join2_child top n Hs), <- append_assoc. split.
  - now apply append_not_nil.
  - rewrite endswith_char_app by exact Hn. now apply no_slash_at_end.
Qed.

Lemma proper_names_unfold fs ds :
  proper_names (mkDir fs ds)
  = bool_decide (NoDup (map fst ds)) &&
    forallb (fun e => negb (String.eqb e.1 "") && negb (str_in "/" e.1)
                      && proper_names e.2) ds.
Proof.
  cbn [proper_names]. f_equal. induction ds as [|[n sub] ds IH]; [reflexivity|].
  cbn [forallb fst snd]. now rewrite IH.
Qed.

Lemma proper_child fs ds e :
  proper_names (mkDir fs ds) = true -> e ∈ ds ->
  e.1 <> "" /\ str_in "/" e.1 = false /\ proper_names e.2 = true.
Proof.
  rewrite proper_names_unfold. intros H He.
  apply andb_true_iff in H as [_ H]. rewrite forallb_forall in H.
  apply list_elem_of_In in He. specialize (H e He).
  apply andb_true_iff in H as [H Hsub]. apply andb_true_iff in H as [Hne Hs].
  apply negb_true_iff in Hne, Hs. repeat split; auto.
  intros E. rewrite E in Hne. discriminate Hne.
Qed.

(** Below a directory whose path is not empty and does not end with the
    separator, every walked path is that path, or that path followed by a
    separator and more. *)
Lemma visit_below d :
  forall c p' d',
    proper_names d = true -> c <> "" -> endswith_char c "/" = false ->
    (p', d') ∈ visit c d ->
    exists r, p' = c +:+ r /\ (r = "" \/ startswith r "/" = true).
Proof.
  induction d as [fs ds IH] using Dir_ind'. intros c p' d' Hp Hc Hend Hin.
  rewrite visit_unfold in Hin. apply elem_of_cons in Hin as [[= -> _] | Hin].
  - exists "". rewrite append_nil_r. auto.
  - apply list_elem_of_In, in_flat_map in Hin as [e [He Hin]].
    apply list_elem_of_In in He, Hin. cbn [join fold_left] in Hin.
    destruct (proper_child fs ds e Hp He) as [Hne [Hs Hsub]].
    destruct (child_path_proper c e.1 Hne Hs) as [Hc' Hend'].
    rewrite Forall_forall in IH.
    destruct (IH e He _ _ _ Hsub Hc' Hend' Hin) as [r [-> _]].
    rewrite (join2_below c e.1 Hc Hend Hs).
    exists ("/" +:+ e.1 +:+ r). split.
    + now rewrite !append_assoc.
    + right. cbn. now rewrite startswith_nil.
Qed.

(** Two names without separator that agree up to a separator are the
    same name. *)
Lemma split_at_separator n1 :
  forall n2 r1 r2,
    str_in "/" n1 = false -> str_in "/" n2 = false ->
    (r1 = "" \/ startswith r1 "/" = true) ->
    (r2 = "" \/ startswith r2 "/" = true) ->
    n1 +:+ r1 = n2 +:+ r2 -> n1 = n2.
Proof.
  induction n1 as [|a n1 IH]; intros n2 r1 r2 H1 H2 Hr1 Hr2 Heq.
  - destruct n2 as [|b n2]; [reflexivity|]. exfalso.
    apply no_slash_cons in H2 as [Hb _]. cbn in Heq.
    destruct Hr1 as [-> | Hr1]; [discriminate|]. subst r1.
    cbn [startswith] in Hr1. apply andb_true_iff in Hr1 as [Hr1 _].
    apply Ascii.eqb_eq in Hr1. congruence.
  - destruct n2 as [|b n2].
    + exfalso. apply no_slash_cons in H1 as [Ha _]. cbn in Heq.
      destruct Hr2 as [-> | Hr2]; [discriminate|]. subst r2.
      cbn [startswith] in Hr2. apply andb_true_iff in Hr2 as [Hr2 _].
      apply Ascii.eqb_eq in Hr2. congruence.
    + apply no_slash_cons in H1 as [_ H1]. apply no_slash_cons in H2 as [_ H2].
      cbn in Heq. injection Heq as -> Heq. f_equal. eauto.
Qed.

(** The paths walked under a child, as the child's name and a rest. *)
Lemma visit_child top fs ds e p' d' :
  proper_names (mkDir fs ds) = true -> e ∈ ds ->
  (p', d') ∈ visit (join top [e.1]) e.2 ->
  exists r,
    p' = top +:+ (if (String.eqb top "" || endswith_char top "/"%char)%bool
                  then "" else "/") +:+ e.1 +:+ r
    /\ (r = "" \/ startswith r "/" = true).
Proof.
  intros Hp He Hin. cbn [join fold_left] in Hin.
  destruct (proper_child fs ds e Hp He) as [Hne [Hs Hsub]].
  destruct (child_path_proper top e.1 Hne Hs) as [Hc Hend].
  destruct (visit_below e.2 _ _ _ Hsub Hc Hend Hin) as [r [-> Hr]].
  exists r. split; [|exact Hr].
  now rewrite (join2_child top e.1 Hs), !append_assoc.
Qed.

Lemma visit_paths_NoDup d :
  forall top, proper_names d = true -> NoDup (map fst (visit top d)).
Proof.
  induction d as [fs ds IH] using Dir_ind'. intros top Hp.
  rewrite visit_unfold. cbn [map fst].
  set (sep := if (String.eqb top "" || endswith_char top "/"%char)%bool
              then "" else "/").
  assert (Hchild : forall e p', e ∈ ds ->
            p' ∈ map fst (visit (join top [e.1]) e.2) ->
            exists r, p' = top +:+ sep +:+ e.1 +:+ r
                      /\ (r = "" \/ startswith r "/" = true)).
  { intros e p' He Hin. apply list_elem_of_fmap in Hin as [[p'' d'] [-> Hin]].
    exact (visit_child top fs ds e p'' d' Hp He Hin). }
  assert (Hnames : NoDup (map fst ds)).
  { rewrite proper_names_unfold in Hp. apply andb_true_iff in Hp as [Hp _].
    now apply bool_decide_eq_true in Hp. }
  assert (Hsubs : forall e, e ∈ ds ->
            NoDup (map fst (visit (join top [e.1]) e.2))).
  { intros e He. rewrite Forall_forall in IH. apply IH; [exact He|].
    now destruct (proper_child fs ds e Hp He) as [_ [_ H]]. }
  assert (Hne : forall e, e ∈ ds -> e.1 <> "" /\ str_in "/" e.1 = false).
  { intros e He. destruct (proper_child fs ds e Hp He) as [H1 [H2 _]]. auto. }
  clear IH Hp. apply NoDup_cons. split.
  - intros Hin. apply list_elem_of_fmap in Hin as [[p' d'] [Heq Hin]].
    cbn [fst] in Heq. subst p'.
    apply list_elem_of_In, in_flat_map in Hin as [e [He Hin]].
    apply list_elem_of_In in He, Hin.
    destruct (Hchild e top He) as [r [Heq _]].
    { apply list_elem_of_fmap. now exists (top, d'). }
    rewrite <- (append_nil_r top) in Heq at 1.
    apply (inj (String.append top)) in Heq.
    destruct (Hne e He) as [Hn _].
    symmetry in Heq. rewrite <- append_assoc in Heq.
    destruct sep, e.1; cbn in Heq; congruence.
  - induction ds as [|e ds IHds]; [constructor|].
    cbn [flat_map]. rewrite map_app. apply NoDup_app. repeat split.
    + apply Hsubs, list_elem_of_here.
    + intros p' Hin1 Hin2.
      apply list_elem_of_fmap in Hin2 as [[p'' d'] [Heq Hin2]].
      cbn [fst] in Heq. subst p''.
      apply list_elem_of_In, in_flat_map in Hin2 as [e' [He' Hin2]].
      apply list_elem_of_In in He', Hin2.
      destruct (Hchild e p' (list_elem_of_here _ _) Hin1) as [r1 [Heq1 Hr1]].
      destruct (Hchild e' p' (list_elem_of_further _ _ _ He')) as [r2 [Heq2 Hr2]].
      { apply list_elem_of_fmap. now exists (p', d'). }
      rewrite Heq1 in Heq2.
      apply (inj (String.append top)), (inj (String.append sep)) in Heq2.
      destruct (Hne e (list_elem_of_here _ _)) as [_ Hs1].
      destruct (Hne e' (list_elem_of_further _ _ _ He')) as [_ Hs2].
      pose proof (split_at_separator _ _ _ _ Hs1 Hs2 Hr1 Hr2 Heq2) as Hsame.
      cbn [map] in Hnames. apply NoDup_cons in Hnames as [Hnot _].
      apply Hnot. rewrite Hsame. apply list_elem_of_fmap. now exists e'.
    + cbn [map] in Hnames. apply NoDup_cons in Hnames as [_ Hnames].
      apply IHds; auto.
      * intros e' p' He'. apply Hchild. now apply list_elem_of_further.
      * intros e' He'. apply Hsubs. now apply list_elem_of_further.
      * intros e' He'. apply Hne. now apply list_elem_of_further.
Qed.

Lemma NoDup_map_filter {A B} (f : A -> B) (g : A -> bool) l :
  NoDup (map f l) -> NoDup (map f (List.filter g l)).
Proof.
  induction l as [|x l IH]; cbn [map List.filter]; [auto|].
  intros H. apply NoDup_cons in H as [Hx Hl].
  destruct (g x); [|auto]. cbn [map]. apply NoDup_cons. split; [|auto].
  intros Hin. apply Hx. apply list_elem_of_fmap in Hin as [y [-> Hy]].
  apply list_elem_of_fmap. exists y. split; [reflexivity|].
  apply list_elem_of_In, filter_In in Hy as [Hy _]. now apply list_elem_of_In.
Qed.

(** X28: on a tree whose directory names are not empty, hold no
    separator and are not repeated within a directory, the scan returns
    no path twice: the names of the returned modules are pairwise
    distinct. *)
Theorem no_directory_reported_twice tree path mods :
  proper_names tree = true ->
  load_project tree path = Ok mods ->
  NoDup (map Module_.name mods).
Proof.
  intros Hp Hload. apply load_project_ok in Hload as [_ ->].
  rewrite map_map. cbn [load_module Module_.name]. rewrite map_id.
  rewrite positions_filter. apply NoDup_map_filter.
  rewrite walk_visit, map_map. cbn [fst].
  now apply visit_paths_NoDup.
Qed.

Lemma no_directory_reported_twice_witness :
  NoDup (map Module_.name [load_module "project"; load_module "project/lib"]).
Proof.
  exact (no_directory_reported_twice scenario_tree "project" _ eq_refl eq_refl).
Defined.

End ScanFacts.
